(** * go-mlog: statement lowering and row rendering

    A shallow embedding of [transpiler/statement.go] (the functions
    [statementToMLOG] and [assignStmtToMLOG]) and of
    [transpiler/types.go] (the function [MLOGToString]).

    Go values that are compared or mutated through pointers (instructions,
    jump-target cells, temporaries) live in an arena: a pointer is an index
    into it, [&T{...}] appends a cell, and an assignment to a field through
    a pointer rewrites the cell.  A Go function returning [(value, error)] that may
    also panic is a state transformer over the arena with a three-way
    result. *)

From Stdlib Require Import ZArith Lia DecimalString DecimalPos DecimalZ Ascii String.
From stdpp Require Import base list strings.

Open Scope string_scope.
Open Scope list_scope.

Set Warnings "-register-all".

(** ** The abstract syntax tree ([go/ast], [go/token]) *)

(** The tokens the lowering can meet in an operator position. *)
Inductive Token :=
| ILLEGAL
| INT | FLOAT | CHAR | STRING
| ADD | SUB | MUL | QUO | REM
| AND | OR | XOR | SHL | SHR | AND_NOT
| ADD_ASSIGN | SUB_ASSIGN | MUL_ASSIGN | QUO_ASSIGN | REM_ASSIGN
| LAND | LOR | ARROW | INC | DEC
| EQL | LSS | GTR | ASSIGN | NOT
| NEQ | LEQ | GEQ | DEFINE
| BREAK | CONTINUE | GOTO | FALLTHROUGH.

#[global] Instance Token_eq_dec : EqDecision Token.
Proof. solve_decision. Defined.

(** [ast.Expr] is an interface: [NilExpr] is its nil value, the other
    constructors are the node types behind it (positions are dropped). *)
Inductive Expr :=
| NilExpr
| Ident (Name : string)
| BasicLit (Kind : Token) (Value : string)
| BinaryExpr (X : Expr) (Op : Token) (Y : Expr)
| UnaryExpr (Op : Token) (X : Expr)
| ParenExpr (X : Expr)
| CallExpr (Fun : Expr) (Args : list Expr)
| SelectorExpr (X : Expr) (Sel : string)
| IndexExpr (X : Expr) (Index : Expr).

(** [ast.Stmt] is an interface as well, with [NilStmt] its nil value.  The
    [Body] of a [for] and of an [if] is a [*ast.BlockStmt]; it is
    represented by the statement list of that block. *)
Inductive Stmt :=
| NilStmt
| ForStmt (Init : Stmt) (Cond : Expr) (Post : Stmt) (Body : list Stmt)
| ExprStmt (X : Expr)
| IfStmt (Init : Stmt) (Cond : Expr) (Body : list Stmt) (Else : Stmt)
| AssignStmt (Lhs : list Expr) (Tok : Token) (Rhs : list Expr)
| ReturnStmt (Results : list Expr)
| BlockStmt (List : list Stmt)
| IncDecStmt (X : Expr) (Tok : Token)
| EmptyStmt
| BranchStmt (Tok : Token) (Label : Expr)
| LabeledStmt (Label : string) (S : Stmt)
| GoStmt (Call : Expr)
| DeferStmt (Call : Expr)
| RangeStmt (Key Value : Expr) (Tok : Token) (X : Expr) (Body : list Stmt).

(** [s == nil] *)
Definition isNilStmt (s : Stmt) : bool :=
  match s with NilStmt => true | _ => false end.

(** What [fmt]'s verb [%T] prints for a value of either interface. *)
Definition exprTypeName (e : Expr) : string :=
  match e with
  | NilExpr => "<nil>"
  | Ident _ => "*ast.Ident"
  | BasicLit _ _ => "*ast.BasicLit"
  | BinaryExpr _ _ _ => "*ast.BinaryExpr"
  | UnaryExpr _ _ => "*ast.UnaryExpr"
  | ParenExpr _ => "*ast.ParenExpr"
  | CallExpr _ _ => "*ast.CallExpr"
  | SelectorExpr _ _ => "*ast.SelectorExpr"
  | IndexExpr _ _ => "*ast.IndexExpr"
  end.

Definition stmtTypeName (s : Stmt) : string :=
  match s with
  | NilStmt => "<nil>"
  | ForStmt _ _ _ _ => "*ast.ForStmt"
  | ExprStmt _ => "*ast.ExprStmt"
  | IfStmt _ _ _ _ => "*ast.IfStmt"
  | AssignStmt _ _ _ => "*ast.AssignStmt"
  | ReturnStmt _ => "*ast.ReturnStmt"
  | BlockStmt _ => "*ast.BlockStmt"
  | IncDecStmt _ _ => "*ast.IncDecStmt"
  | EmptyStmt => "*ast.EmptyStmt"
  | BranchStmt _ _ => "*ast.BranchStmt"
  | LabeledStmt _ _ => "*ast.LabeledStmt"
  | GoStmt _ => "*ast.GoStmt"
  | DeferStmt _ => "*ast.DeferStmt"
  | RangeStmt _ _ _ _ _ => "*ast.RangeStmt"
  end.

(** ** Operands, instructions and the arena *)

Abbreviation ptr := nat.

(** A [Resolvable].  [Value] and [NormalVariable] cells are never written
    after their creation, so they are represented by their content; a
    [DynamicVariable] is created without content and is known by its
    address only. *)
Inductive Resolvable :=
| Value (Value : string)
| NormalVariable (Name : string)
| DynamicVariable (at_ : ptr).

(** The cells of the arena.  An [MLOGStatement] in an instruction list is
    the address of an [MLOG], [MLOGJump] or [MLOGTrampolineBack] cell; the
    [JumpTarget] of a jump is nil, the address of an instruction, or the
    address of a [StatementJumpTarget] cell. *)
Inductive Object :=
| MLOG (Comment : string) (Statement : list (list Resolvable))
| MLOGJump (Comment : string) (Condition : list Resolvable) (JumpTarget : option ptr)
| MLOGTrampolineBack
| StatementJumpTarget (After : bool) (Statement : ptr)
| DynamicVariableCell.

Abbreviation Heap := (list Object).

Record Options := { Numbers : bool; Comments : bool }.

(** ** Results and the lowering monad *)

Inductive Result (A : Type) :=
| Ok (a : A)
| Err (msg : string)
| Panic (msg : string).
Arguments Ok {A} a.
Arguments Err {A} msg.
Arguments Panic {A} msg.

Definition M (A : Type) : Type := Heap -> Heap * Result A.

Definition ret {A} (a : A) : M A := fun h => (h, Ok a).

Definition bind {A B} (m : M A) (k : A -> M B) : M B :=
  fun h =>
    match m h with
    | (h', Ok a) => k a h'
    | (h', Err e) => (h', Err e)
    | (h', Panic e) => (h', Panic e)
    end.

(** [return nil, errors.New(msg)] *)
Definition throw {A} (msg : string) : M A := fun h => (h, Err msg).

(** a run-time panic *)
Definition panic {A} (msg : string) : M A := fun h => (h, Panic msg).

(** [&T{...}]: a new cell at the end of the arena *)
Definition alloc (o : Object) : M ptr := fun h => (h ++ [o], Ok (length h)).

(** [jump.JumpTarget = target], an assignment to a field through the
    pointer [jump] *)
Definition setJumpTarget (jump target : ptr) : M unit :=
  fun h =>
    match h !! jump with
    | Some (MLOGJump Comment Condition _) =>
        (<[jump := MLOGJump Comment Condition (Some target)]> h, Ok tt)
    | _ => (h, Panic "runtime error: invalid memory address or nil pointer dereference")
    end.

(** [cell.Statement = statement], through the pointer [cell] *)
Definition setTargetStatement (cell statement : ptr) : M unit :=
  fun h =>
    match h !! cell with
    | Some (StatementJumpTarget After _) =>
        (<[cell := StatementJumpTarget After statement]> h, Ok tt)
    | _ => (h, Panic "runtime error: invalid memory address or nil pointer dereference")
    end.

Notation "x <- c1 ;; c2" := (bind c1 (fun x => c2))
  (at level 100, c1 at next level, right associativity).

(** ** Statement lowering ([transpiler/statement.go]) *)

Section Lowering.

(** The table [jumpOperators], the constant [FunctionReturnVariable] and
    the expression lowering [expressionToMLOG] are declared in other
    files of the package; the statement lowering is read relative to
    them. *)
Variable jumpOperators : Token -> option string.
Variable FunctionReturnVariable : string.
Variable expressionToMLOG : list Resolvable -> Expr -> Options -> M (list ptr).

(** [x.( *ast.Ident).Name], the one-result form of the type assertion,
    which panics on any other dynamic type. *)
Definition identName (x : Expr) : M string :=
  match x with
  | Ident Name => ret Name
  | NilExpr => panic "interface conversion: interface is nil, not *ast.Ident"
  | _ => panic ("interface conversion: ast.Expr is " +:+ exprTypeName x +:+ ", not *ast.Ident")
  end.

(** A literal or a bare identifier, as the operand it stands for. *)
Definition asOperand (x : Expr) : option Resolvable :=
  match x with
  | BasicLit _ v => Some (Value v)
  | Ident Name => Some (NormalVariable Name)
  | _ => None
  end.

(** One side of the condition of a [for] loop (lines 35-41 and 43-49). *)
Definition forConditionSide (side : string) (x : Expr) : M Resolvable :=
  match x with
  | BasicLit _ v => ret (Value v)
  | Ident Name => ret (NormalVariable Name)
  | _ => throw ("unknown " +:+ side +:+ " side expression type: " +:+ exprTypeName x)
  end.

(** [leftSide[i] = &NormalVariable{Name: lhs.( *ast.Ident).Name}] for each
    [lhs], in order (lines 274-278). *)
Fixpoint assignLeftSide (Lhs : list Expr) : M (list Resolvable) :=
  match Lhs with
  | [] => ret []
  | lhs :: Lhs' =>
      name <- identName lhs ;;
      leftSide <- assignLeftSide Lhs' ;;
      ret (NormalVariable name :: leftSide)
  end.

(** The loop of lines 289-303 over the destinations, [Rhs] being indexed
    by the position [i] of the destination. *)
Fixpoint assignPairs (Lhs : list Expr) (Tok : Token) (Rhs : list Expr)
    (options : Options) (i : nat) (mlog : list ptr) : M (list ptr) :=
  match Lhs with
  | [] => ret mlog
  | expr :: Lhs' =>
      match expr with
      | Ident Name =>
          if bool_decide (Tok <> ASSIGN) && bool_decide (Tok <> DEFINE)
          then throw "only direct assignment is supported"
          else
            match Rhs !! i with
            | Some rhs =>
                exprMLOG <- expressionToMLOG [NormalVariable Name] rhs options ;;
                assignPairs Lhs' Tok Rhs options (S i) (mlog ++ exprMLOG)
            | None => panic "runtime error: index out of range"
            end
      | _ => throw "left side variable assignment can only contain identifications"
      end
  end.

(** [assignStmtToMLOG] (lines 269-307), on the fields of the
    [*ast.AssignStmt]. *)
Definition assignStmtToMLOG (Lhs : list Expr) (Tok : Token) (Rhs : list Expr)
    (options : Options) : M (list ptr) :=
  let mlog := [] in
  if negb (length Lhs =? length Rhs)%nat then
    match Rhs with
    | [rhs0] =>
        leftSide <- assignLeftSide Lhs ;;
        exprMLOG <- expressionToMLOG leftSide rhs0 options ;;
        ret (mlog ++ exprMLOG)
    | _ => throw "mismatched variable assignment sides"
    end
  else assignPairs Lhs Tok Rhs options 0 mlog.

(** The [range] loop of the [*ast.BlockStmt] case (lines 234-240), over a
    lowering [rec] of the single statements. *)
Definition rangeBlock (rec : Stmt -> M (list ptr)) : list Stmt -> list ptr -> M (list ptr) :=
  fix loop (List : list Stmt) (results : list ptr) : M (list ptr) :=
    match List with
    | [] => ret results
    | s :: List' =>
        instructions <- rec s ;;
        loop List' (results ++ instructions)
    end.

(** The condition of a [for] loop (lines 29-67): the jump back to the
    start of the loop is created here, its target still nil. *)
Definition forCondition (Cond : Expr) : M ptr :=
  match Cond with
  | BinaryExpr X Op Y =>
      match jumpOperators Op with
      | Some translatedOp =>
          leftSide <- forConditionSide "left" X ;;
          rightSide <- forConditionSide "right" Y ;;
          alloc (MLOGJump "Jump to start of loop"
                   [Value translatedOp; leftSide; rightSide] None)
      | None => throw "jump statement cannot use this operation: token.Token"
      end
  | _ => throw "for loop can only have binary conditional expressions"
  end.

(** The condition of an [if] (lines 107-119): the operand that holds it,
    and the instruction list extended by the instructions computing it. *)
Definition ifCondition (Cond : Expr) (options : Options) (results : list ptr)
    : M (Resolvable * list ptr) :=
  match Cond with
  | Ident Name => ret (NormalVariable Name, results)
  | _ =>
      condVar <- alloc DynamicVariableCell ;;
      instructions <- expressionToMLOG [DynamicVariable condVar] Cond options ;;
      ret (DynamicVariable condVar, results ++ instructions)
  end.

(** The returned value (lines 199-216): the operand that holds it, and the
    instruction list extended by the instructions computing it. *)
Definition returnResultVar (returnValue : Expr) (options : Options) (results : list ptr)
    : M (Resolvable * list ptr) :=
  match returnValue with
  | Ident Name => ret (NormalVariable Name, results)
  | BasicLit _ v => ret (Value v, results)
  | NilExpr => throw "unknown return value type: <nil>"
  | expr =>
      dVar <- alloc DynamicVariableCell ;;
      instructions <- expressionToMLOG [DynamicVariable dVar] expr options ;;
      ret (DynamicVariable dVar, results ++ instructions)
  end.

(** [statementToMLOG] (lines 10-267): the type switch over the statement,
    with [results] the instruction list built so far. *)
Fixpoint statementToMLOG (statement : Stmt) (options : Options) {struct statement}
    : M (list ptr) :=
  let results : list ptr := [] in
  match statement with
  | ForStmt Init Cond Post Body =>
      if (length Body =? 0)%nat then ret results else
      initMlog <- statementToMLOG Init options ;;
      let results := results ++ initMlog in
      loopStartJump <- forCondition Cond ;;
      bodyMLOG <- rangeBlock (fun s => statementToMLOG s options) Body [] ;;
      let results := results ++ bodyMLOG in
      instructions <- statementToMLOG Post options ;;
      let results := results ++ instructions in
      match bodyMLOG with
      | first :: _ =>
          _ <- setJumpTarget loopStartJump first ;;
          ret (results ++ [loopStartJump])
      | [] => panic "runtime error: index out of range [0] with length 0"
      end
  | ExprStmt X =>
      instructions <- expressionToMLOG [] X options ;;
      ret (results ++ instructions)
  | IfStmt Init Cond Body Else =>
      results <- (if isNilStmt Init then ret results
                  else
                    instructions <- statementToMLOG Init options ;;
                    ret (results ++ instructions)) ;;
      cond <- ifCondition Cond options results ;;
      let '(condVar, results) := cond in
      blockInstructions <- rangeBlock (fun s => statementToMLOG s options) Body [] ;;
      match blockInstructions, last blockInstructions with
      | blockFirst :: _, Some blockLast =>
          ifTarget <- alloc (StatementJumpTarget false blockFirst) ;;
          ifJump <- alloc (MLOGJump "Jump to if block if true"
                             [Value "equal"; condVar; Value "1"] (Some ifTarget)) ;;
          let results := results ++ [ifJump] in
          afterIfTarget <- alloc (StatementJumpTarget true blockLast) ;;
          afterIfJump <- alloc (MLOGJump "Jump to after if block"
                                  [Value "always"] (Some afterIfTarget)) ;;
          let results := results ++ [afterIfJump] in
          let results := results ++ blockInstructions in
          if isNilStmt Else then ret results
          else
            elseInstructions <- statementToMLOG Else options ;;
            match last elseInstructions with
            | Some elseLast =>
                afterElseTarget <- alloc (StatementJumpTarget true elseLast) ;;
                afterElseJump <- alloc (MLOGJump "Jump to after else block"
                                          [Value "always"] (Some afterElseTarget)) ;;
                let results := results ++ [afterElseJump] in
                _ <- setTargetStatement afterIfTarget afterElseJump ;;
                ret (results ++ elseInstructions)
            | None => panic "runtime error: index out of range [-1]"
            end
      | _, _ => panic "runtime error: index out of range [0] with length 0"
      end
  | AssignStmt Lhs Tok Rhs =>
      assignMlog <- assignStmtToMLOG Lhs Tok Rhs options ;;
      ret (results ++ assignMlog)
  | ReturnStmt Results =>
      if (1 <? length Results)%nat
      then throw "only single value returns are supported"
      else
        results <- match Results with
                   | returnValue :: _ =>
                       value <- returnResultVar returnValue options results ;;
                       let '(resultVar, results) := value in
                       setReturn <- alloc (MLOG "Set return data"
                                             [[Value "set"; Value FunctionReturnVariable;
                                               resultVar]]) ;;
                       ret (results ++ [setReturn])
                   | [] => ret results
                   end ;;
        trampoline <- alloc MLOGTrampolineBack ;;
        ret (results ++ [trampoline])
  | BlockStmt List =>
      rangeBlock (fun s => statementToMLOG s options) List results
  | IncDecStmt X Tok =>
      name <- identName X ;;
      let name := NormalVariable name in
      let op := if bool_decide (Tok = DEC) then "sub" else "add" in
      incDec <- alloc (MLOG "Execute for loop post condition increment/decrement"
                         [[Value "op"; Value op; name; name; Value "1"]]) ;;
      ret (results ++ [incDec])
  | _ => throw ("statement type not supported: " +:+ stmtTypeName statement)
  end.

(** The initializer of an [if], when there is one (lines 99-105). *)
Definition ifInit (Init : Stmt) (options : Options) : M (list ptr) :=
  if isNilStmt Init then ret [] else statementToMLOG Init options.

(** The value of a [return], if there is one, can be lowered: it is a
    named variable or a literal, or the expression lowering accepts it
    into a new temporary. *)
Definition returnValueLowers (Results : list Expr) (options : Options) (h : Heap) : Prop :=
  match Results with
  | [] => True
  | returnValue :: _ =>
      match returnValue with
      | Ident _ | BasicLit _ _ => True
      | NilExpr => False
      | expr =>
          exists h1 instructions,
            expressionToMLOG [DynamicVariable (length h)] expr options
              (h ++ [DynamicVariableCell]) = (h1, Ok instructions)
      end
  end.

(** The lowerings of the statements of a list, one after the other, each
    kept apart. *)
Fixpoint lowerEach (List : list Stmt) (options : Options) : M (list (list ptr)) :=
  match List with
  | [] => ret []
  | s :: List' =>
      out <- statementToMLOG s options ;;
      outs <- lowerEach List' options ;;
      ret (out :: outs)
  end.

End Lowering.

(** A computation that only allocates: the cells that exist before it runs
    are unchanged after it, and the instructions it returns are distinct
    cells created while it ran. *)
Definition inRange (a b : nat) (l : list ptr) : Prop :=
  NoDup l /\ Forall (fun p => a <= p < b) l.

Definition createdBetween (h h' : Heap) (l : list ptr) : Prop :=
  inRange (length h) (length h') l.

Definition allocatesOnly (m : M (list ptr)) : Prop :=
  forall h h' r, m h = (h', r) ->
    h `prefix_of` h' /\
    match r with Ok l => createdBetween h h' l | _ => True end.

Arguments rangeBlock : simpl never.

(** ** Linearization *)

Section Linearization.

(** The number of rows the trampoline marker expands to is fixed outside
    the lowering (section 3: "its concrete lowering is external"). *)
Variable trampolineRows : nat.

(** Modelled from the spec: the row count of an instruction, whose
    methods are declared outside the two files.  Section 3: a plain
    instruction is an ordered list of operand rows; a jump is one
    condition and one target, a single row (the example of section 8
    counts one row for each jump). *)
Definition rows (h : Heap) (p : ptr) : nat :=
  match h !! p with
  | Some (MLOG _ Statement) => length Statement
  | Some (MLOGJump _ _ _) => 1
  | Some MLOGTrampolineBack => trampolineRows
  | _ => 0
  end.

Definition totalRows (h : Heap) (program : list ptr) : nat :=
  foldr (fun p n => rows h p + n) 0 program.

(** Modelled from the spec: the address of an instruction, assigned by a
    pass outside the two files.  Section 4.3: "Each physical output row
    is assigned a monotonically increasing address starting from a
    configurable base"; the address of an instruction is that of its
    first row. *)
Fixpoint address (h : Heap) (base : Z) (program : list ptr) (p : ptr) : option Z :=
  match program with
  | [] => None
  | q :: program' =>
      if decide (q = p) then Some base
      else address h (base + Z.of_nat (rows h q)) program' p
  end.

(** Modelled from the spec: the resolution of a jump target, done by
    methods outside the two files.  Section 4.3: "the address of the
    first row contributed by its referenced instruction (no after-flag),
    or one past the address of the last row contributed by its
    referenced instruction (after-flag set)".  A target that is itself an
    instruction resolves to the address of that instruction. *)
Definition resolve (h : Heap) (base : Z) (program : list ptr) (target : ptr) : option Z :=
  match h !! target with
  | Some (StatementJumpTarget After Statement) =>
      match address h base program Statement with
      | Some a => Some (if After then a + Z.of_nat (rows h Statement) else a)%Z
      | None => None
      end
  | Some _ => address h base program target
  | None => None
  end.

(** The address a jump instruction transfers control to. *)
Definition jumpAddress (h : Heap) (base : Z) (program : list ptr) (jump : ptr) : option Z :=
  match h !! jump with
  | Some (MLOGJump _ _ (Some target)) => resolve h base program target
  | _ => None
  end.

End Linearization.

(** ** Rendering ([transpiler/types.go]) *)

(** Go's [int] on a 64-bit platform: the result of an arithmetic operation
    is reduced to the signed 64-bit range. *)
Definition wrapInt (z : Z) : Z := ((z + 2 ^ 63) mod 2 ^ 64 - 2 ^ 63)%Z.

Definition isInt (z : Z) : Prop := (- 2 ^ 63 <= z < 2 ^ 63)%Z.

Definition newline : string := String "010"%char "".

Definition spaces (n : nat) : string := string_of_list_ascii (replicate n " "%char).

(** The verb [%d]: the decimal digits, with a minus sign for a negative
    number. *)
Definition formatInt (n : Z) : string := DecimalString.NilZero.string_of_int (Z.to_int n).

(** The verb [%3d]: right-aligned in a field of at least three columns. *)
Definition padLeft (width : nat) (s : string) : string :=
  spaces (width - String.length s) +:+ s.

(** [fmt.Sprintf("%3d: ", lineNumber)] *)
Definition Sprintf_3d (lineNumber : Z) : string := padLeft 3 (formatInt lineNumber) +:+ ": ".

Section Rendering.

(** The methods [GetValue] of an operand and [GetComment] of an
    instruction are defined outside [types.go]; [RuneCountInString] is
    the function of Go's package [unicode/utf8] by which [fmt] measures
    a string against a field width. *)
Variable GetValue : Resolvable -> string.
Variable GetComment : Object -> string.
Variable RuneCountInString : string -> nat.

(** [fmt.Sprintf("%-45s", s)]: left-aligned in a field of 45 columns. *)
Definition Sprintf_45s (s : string) : string := s +:+ spaces (45 - RuneCountInString s).

(** The inner loop (lines 12-17), joining the tokens of one row. *)
Fixpoint joinTokens (line : list Resolvable) (resultLine : string) : string :=
  match line with
  | [] => resultLine
  | t :: line' =>
      let resultLine := if negb (String.eqb resultLine "") then resultLine +:+ " "
                        else resultLine in
      joinTokens line' (resultLine +:+ GetValue t)
  end.

(** The value stored in the context under the key [contextOptions], if
    any; the type assertion [.(Options)] panics without one. *)
Definition Context := option Options.

(** The outer loop (lines 10-32). *)
Fixpoint renderRows (ctx : Context) (statements : list (list Resolvable))
    (statement : Object) (lineNumber : Z) (result : string) : Result string :=
  match statements with
  | [] => Ok result
  | line :: statements' =>
      let resultLine := joinTokens line "" in
      match ctx with
      | None => Panic "interface conversion: interface {} is nil, not transpiler.Options"
      | Some options =>
          let result := if Numbers options then result +:+ Sprintf_3d lineNumber
                        else result in
          let result := if Comments options
                        then (result +:+ Sprintf_45s resultLine)
                               +:+ (" // " +:+ GetComment statement)
                        else result +:+ resultLine in
          let result := result +:+ newline in
          renderRows ctx statements' statement (wrapInt (lineNumber + 1)) result
      end
  end.

Definition MLOGToString (ctx : Context) (statements : list (list Resolvable))
    (statement : Object) (lineNumber : Z) : Result string :=
  renderRows ctx statements statement lineNumber "".

(** What follows the address in a rendered row: the tokens, the comment
    if comments are shown, and the end of the line. *)
Definition rowBody (options : Options) (statement : Object) (line : list Resolvable)
    : string :=
  (if Comments options
   then Sprintf_45s (joinTokens line "") +:+ (" // " +:+ GetComment statement)
   else joinTokens line "") +:+ newline.

(** The rows of an instruction with their addresses, counted upwards
    from [lineNumber] without regard to the width of [int]. *)
Fixpoint numberedRows (options : Options) (statement : Object) (lineNumber : Z)
    (statements : list (list Resolvable)) : list string :=
  match statements with
  | [] => []
  | line :: statements' =>
      (Sprintf_3d lineNumber +:+ rowBody options statement line)
        :: numberedRows options statement (lineNumber + 1) statements'
  end.

End Rendering.

Definition concatRows (rows : list string) : string := foldr String.append "" rows.

(** Reading back the address that starts a rendered row: the text up to the
    first colon, without its leading spaces, as a decimal number. *)
Fixpoint takeUntilColon (s : string) : string :=
  match s with
  | "" => ""
  | String c s' => if Ascii.eqb c ":" then "" else String c (takeUntilColon s')
  end.

Fixpoint dropSpaces (s : string) : string :=
  match s with
  | String c s' => if Ascii.eqb c " " then dropSpaces s' else s
  | "" => ""
  end.

(** The characters of a string are none of a colon or a space. *)
Fixpoint plain (s : string) : Prop :=
  match s with
  | "" => True
  | String c s' => (c <> ":" /\ c <> " ")%char /\ plain s'
  end.

Definition readAddress (row : string) : option Z :=
  option_map Z.of_int (NilZero.int_of_string (dropSpaces (takeUntilColon row))).

(** ** Sample collaborators

    Concrete values for the parts that are declared outside the two files,
    used to run the lowering and the rendering on examples. *)
Module Sample.

(** Modelled from the spec: the operator-to-jump-condition table, which is
    declared outside [statement.go]; section 6 describes it as a fixed
    table from the supported comparison operators to the comparison
    tokens of the target machine. *)
Definition jumpOperators (op : Token) : option string :=
  match op with
  | EQL => Some "equal"
  | NEQ => Some "notEqual"
  | LSS => Some "lessThan"
  | LEQ => Some "lessThanEq"
  | GTR => Some "greaterThan"
  | GEQ => Some "greaterThanEq"
  | _ => None
  end.

(** Modelled from the spec: the name of the return-value slot, a constant
    declared outside [statement.go] (section 4.1, "a canonical
    return-value slot"). *)
Definition FunctionReturnVariable : string := "@return".

(** Modelled from the spec: the expression lowering, which is outside
    [statement.go]; section 8 gives its result on a literal ("assignment
    x := 5 lowers to one instruction setting x to literal 5"), and the same
    shape is used for a bare identifier.  Every other expression is
    reported as unsupported. *)
Definition expressionToMLOG (ident : list Resolvable) (expr : Expr) (options : Options)
    : M (list ptr) :=
  match ident, expr with
  | [dest], BasicLit _ v =>
      set <- alloc (MLOG "Set the variable to the value" [[Value "set"; dest; Value v]]) ;;
      ret [set]
  | [dest], Ident Name =>
      set <- alloc (MLOG "Set the variable to the value"
                      [[Value "set"; dest; NormalVariable Name]]) ;;
      ret [set]
  | _, _ => throw ("expression type not supported: " +:+ exprTypeName expr)
  end.

Definition options : Options := {| Numbers := false; Comments := false |}.

Definition lower : Stmt -> Options -> M (list ptr) :=
  statementToMLOG jumpOperators FunctionReturnVariable expressionToMLOG.

End Sample.

Module SampleRendering.

(** Modelled from the spec: the rendering of an operand, whose method
    [GetValue] is defined outside [types.go]; section 3: "every operand
    renders to exactly one token string", a literal verbatim and a
    variable by its name.  A temporary is given the name of its cell. *)
Definition GetValue (r : Resolvable) : string :=
  match r with
  | Value v => v
  | NormalVariable Name => Name
  | DynamicVariable p => "_" +:+ formatInt (Z.of_nat p)
  end.

(** Modelled from the spec: the annotation of an instruction (section 3),
    whose method [GetComment] is defined outside [types.go]. *)
Definition GetComment (statement : Object) : string :=
  match statement with
  | MLOG Comment _ => Comment
  | MLOGJump Comment _ _ => Comment
  | _ => ""
  end.

(** The number of runes of a string of ASCII characters is its length. *)
Definition RuneCountInString (s : string) : nat := String.length s.

Definition render : Context -> list (list Resolvable) -> Object -> Z -> Result string :=
  MLOGToString GetValue GetComment RuneCountInString.

End SampleRendering.

(** ** Further notions used to state properties of the lowering *)

(** The statement kinds that have a case of their own in the type switch of
    [statementToMLOG]; every other kind, and nil, goes to [default]. *)
Definition isSupported (s : Stmt) : bool :=
  match s with
  | ForStmt _ _ _ _ | ExprStmt _ | IfStmt _ _ _ _ | AssignStmt _ _ _
  | ReturnStmt _ | BlockStmt _ | IncDecStmt _ _ => true
  | _ => false
  end.

Definition isIdent (x : Expr) : bool :=
  match x with Ident _ => true | _ => false end.

Section PairLowering.

Variable expressionToMLOG : list Resolvable -> Expr -> Options -> M (list ptr).

(** Each destination name with its source, lowered one after the other by
    the expression lowering with that single destination. *)
Fixpoint lowerPairs (pairs : list (string * Expr)) (options : Options)
    : M (list (list ptr)) :=
  match pairs with
  | [] => ret []
  | (Name, rhs) :: pairs' =>
      out <- expressionToMLOG [NormalVariable Name] rhs options ;;
      outs <- lowerPairs pairs' options ;;
      ret (out :: outs)
  end.

End PairLowering.

(** An instruction cell: what an [MLOGStatement] can point to. *)
Definition isInstruction (h : Heap) (p : ptr) : Prop :=
  match h !! p with
  | Some (MLOG _ _) | Some (MLOGJump _ _ _) | Some MLOGTrampolineBack => True
  | _ => False
  end.

(** If [p] is a jump, its target is set and designates an instruction of
    [program]: directly, or through a [StatementJumpTarget] cell. *)
Definition targetWithin (h : Heap) (program : list ptr) (p : ptr) : Prop :=
  match h !! p with
  | Some (MLOGJump _ _ JumpTarget) =>
      match JumpTarget with
      | Some target =>
          match h !! target with
          | Some (StatementJumpTarget _ Statement) => Statement ∈ program
          | Some _ => target ∈ program
          | None => False
          end
      | None => False
      end
  | _ => True
  end.

(** A list of instructions none of whose jumps leaves the list. *)
Definition closedProgram (h : Heap) (program : list ptr) : Prop :=
  Forall (fun p => isInstruction h p /\ targetWithin h program p) program.

(** A computation whose instructions form a closed program. *)
Definition producesClosed (m : M (list ptr)) : Prop :=
  forall h h' l, m h = (h', Ok l) -> closedProgram h' l.
(** ** Basic facts about the monad *)

Lemma bind_Ok {A B} (m : M A) (k : A -> M B) h h1 a :
  m h = (h1, Ok a) -> bind m k h = k a h1.
Proof. intros E. unfold bind. now rewrite E. Qed.

Lemma bind_Err {A B} (m : M A) (k : A -> M B) h h1 e :
  m h = (h1, Err e) -> bind m k h = (h1, Err e).
Proof. intros E. unfold bind. now rewrite E. Qed.

Lemma bind_Panic {A B} (m : M A) (k : A -> M B) h h1 e :
  m h = (h1, Panic e) -> bind m k h = (h1, Panic e).
Proof. intros E. unfold bind. now rewrite E. Qed.

Lemma bind_inv {A B} (m : M A) (k : A -> M B) h h' r :
  bind m k h = (h', r) ->
  (exists h1 a, m h = (h1, Ok a) /\ k a h1 = (h', r)) \/
  (exists e, m h = (h', Err e) /\ r = Err e) \/
  (exists e, m h = (h', Panic e) /\ r = Panic e).
Proof.
  unfold bind. destruct (m h) as [h1 [a|e|e]]; intros E.
  - left. eauto.
  - right. left. inversion E. eauto.
  - right. right. inversion E. eauto.
Qed.

Lemma bind_assoc {A B C} (m : M A) (k : A -> M B) (k' : B -> M C) h :
  bind (bind m k) k' h = bind m (fun a => bind (k a) k') h.
Proof. unfold bind. destruct (m h) as [h1 [a|e|e]]; reflexivity. Qed.

(** ** Induction over statements *)

Lemma Stmt_nested_ind (P : Stmt -> Prop)
  (HNil : P NilStmt)
  (HFor : forall Init Cond Post Body,
      P Init -> P Post -> Forall P Body -> P (ForStmt Init Cond Post Body))
  (HExpr : forall X, P (ExprStmt X))
  (HIf : forall Init Cond Body Else,
      P Init -> Forall P Body -> P Else -> P (IfStmt Init Cond Body Else))
  (HAssign : forall Lhs Tok Rhs, P (AssignStmt Lhs Tok Rhs))
  (HReturn : forall Results, P (ReturnStmt Results))
  (HBlock : forall List, Forall P List -> P (BlockStmt List))
  (HIncDec : forall X Tok, P (IncDecStmt X Tok))
  (HEmpty : P EmptyStmt)
  (HBranch : forall Tok Label, P (BranchStmt Tok Label))
  (HLabeled : forall Label S, P S -> P (LabeledStmt Label S))
  (HGo : forall Call, P (GoStmt Call))
  (HDefer : forall Call, P (DeferStmt Call))
  (HRange : forall Key Value Tok X Body,
      Forall P Body -> P (RangeStmt Key Value Tok X Body)) :
  forall s, P s.
Proof.
  fix IH 1.
  assert (all : forall l, Forall P l).
  { fix go 1. intros [|x l]; constructor; [apply IH | apply go]. }
  intros [ | Init Cond Post Body | X | Init Cond Body Else | Lhs Tok Rhs | Results
         | List | X Tok | | Tok Label | Label S | Call | Call | Key Value Tok X Body ].
  - exact HNil.
  - apply HFor; [apply IH | apply IH | apply all].
  - apply HExpr.
  - apply HIf; [apply IH | apply all | apply IH].
  - apply HAssign.
  - apply HReturn.
  - apply HBlock, all.
  - apply HIncDec.
  - exact HEmpty.
  - apply HBranch.
  - apply HLabeled, IH.
  - apply HGo.
  - apply HDefer.
  - apply HRange, all.
Qed.

Lemma bind_ext {A B} (m : M A) (k1 k2 : A -> M B) h :
  (forall a h', k1 a h' = k2 a h') -> bind m k1 h = bind m k2 h.
Proof.
  intros E. unfold bind. destruct (m h) as [h1 [a|e|e]]; [apply E | reflexivity ..].
Qed.

Lemma bind_ret_l {A B} (a : A) (k : A -> M B) h : bind (ret a) k h = k a h.
Proof. reflexivity. Qed.

(** ** Arena growth *)


Lemma prefix_store (h0 h : Heap) p o :
  h0 `prefix_of` h -> length h0 <= p -> h0 `prefix_of` <[p := o]> h.
Proof.
  intros [k ->] Hp. rewrite insert_app_r_alt by exact Hp. eexists. reflexivity.
Qed.


Lemma inRange_nil a b : inRange a b [].
Proof. split; constructor. Qed.




Lemma inRange_elem a b l p : inRange a b l -> p ∈ l -> a <= p < b.
Proof. intros [_ F] H. exact (proj1 (Forall_forall _ _) F _ H). Qed.

Ltac lens :=
  unfold createdBetween in *;
  rewrite ?length_insert, ?length_app in *; simpl in *; lia.

(** A list made of pieces that were created at different times. *)
Ltac elem_bounds :=
  repeat match goal with
    | H : _ ∈ _ ++ _ |- _ => apply elem_of_app in H; destruct H as [H|H]
    | H : _ ∈ [_] |- _ => apply list_elem_of_singleton in H
    | H : ?y ∈ ?l, R : inRange _ _ ?l |- _ => apply (inRange_elem _ _ _ _ R) in H
    end.

Ltac solve_nodup :=
  lazymatch goal with
  | |- NoDup (_ ++ _) =>
      apply NoDup_app; split;
      [solve_nodup | split; [intros ? ? ?; elem_bounds; lia | solve_nodup]]
  | |- NoDup [_] => apply NoDup_singleton
  | |- NoDup [] => constructor
  | |- NoDup ?l => match goal with R : inRange _ _ l |- _ => exact (proj1 R) end
  end.

Ltac solve_forall :=
  lazymatch goal with
  | |- Forall _ (_ ++ _) => apply Forall_app; split; solve_forall
  | |- Forall _ [] => constructor
  | |- Forall _ [_] => constructor; [lia | constructor]
  | |- Forall _ ?l =>
      match goal with
      | R : inRange _ _ l |- _ =>
          eapply Forall_impl; [exact (proj2 R) | simpl; intros; lia]
      end
  end.

Ltac solve_created :=
  unfold createdBetween in *;
  rewrite ?length_insert, ?length_app in *; simpl in *; rewrite ?app_nil_r;
  split; [solve_nodup | solve_forall].

Ltac solve_prefix :=
  repeat first [ reflexivity | apply prefix_store; [| lens] | apply prefix_app_r ].

(** Taking a computation apart along its [bind]s. *)
Ltac inv_M :=
  repeat
    match goal with
    | H : bind _ _ _ = _ |- _ =>
        let h1 := fresh "h" in
        let a := fresh "a" in
        let E := fresh "E" in
        let R := fresh "R" in
        apply bind_inv in H;
        destruct H as [(h1 & a & E & H) | [(? & H & R) | (? & H & R)]];
        [ | try discriminate R; try subst | try discriminate R; try subst ]
    | H : ret _ _ = _ |- _ => unfold ret in H; inversion H; subst; clear H
    | H : throw _ _ = _ |- _ => unfold throw in H; inversion H; subst; clear H
    | H : panic _ _ = _ |- _ => unfold panic in H; inversion H; subst; clear H
    | H : alloc _ _ = _ |- _ => unfold alloc in H; inversion H; subst; clear H
    | H : setJumpTarget _ _ ?h = _ |- _ =>
        unfold setJumpTarget in H; destruct (h !! _) as [[]|] eqn:?;
        inversion H; subst; clear H
    | H : setTargetStatement _ _ ?h = _ |- _ =>
        unfold setTargetStatement in H; destruct (h !! _) as [[]|] eqn:?;
        inversion H; subst; clear H
    | H : (match ?x with _ => _ end) _ = _ |- _ => destruct x eqn:?
    end.

Section LoweringFacts.

Variable jumpOperators : Token -> option string.
Variable FunctionReturnVariable : string.
Variable expressionToMLOG : list Resolvable -> Expr -> Options -> M (list ptr).

Local Abbreviation lower :=
  (statementToMLOG jumpOperators FunctionReturnVariable expressionToMLOG).

Lemma identName_heap x h h' r : identName x h = (h', r) -> h' = h.
Proof. destruct x; simpl; intros H; inv_M; reflexivity. Qed.

Lemma forConditionSide_heap side x h h' r : forConditionSide side x h = (h', r) -> h' = h.
Proof. destruct x; simpl; intros H; inv_M; reflexivity. Qed.

Lemma assignLeftSide_heap Lhs h h' r : assignLeftSide Lhs h = (h', r) -> h' = h.
Proof.
  revert h h' r. induction Lhs as [|x Lhs IH]; simpl; intros h h' r H.
  - inv_M. reflexivity.
  - inv_M;
      repeat match goal with
        | E : identName _ _ = _ |- _ => apply identName_heap in E; subst
        | E : assignLeftSide _ _ = _ |- _ => apply IH in E; subst
        end; reflexivity.
Qed.


Hypothesis expressionToMLOG_allocatesOnly :
  forall ident expr options, allocatesOnly (expressionToMLOG ident expr options).

Ltac use_calls :=
  repeat match goal with
    | E : forConditionSide _ _ _ = _ |- _ => apply forConditionSide_heap in E; subst
    | E : identName _ _ = _ |- _ => apply identName_heap in E; subst
    | E : assignLeftSide _ _ = _ |- _ => apply assignLeftSide_heap in E; subst
    | E : expressionToMLOG _ _ _ _ = _ |- _ =>
        apply expressionToMLOG_allocatesOnly in E; destruct E as [[? ->] ?]
    | IH : allocatesOnly ?m, E : ?m _ = _ |- _ =>
        apply IH in E; destruct E as [[? ->] ?]
    | IH : forall Lhs Tok Rhs options, allocatesOnly _,
      E : assignStmtToMLOG _ _ _ _ _ _ = _ |- _ =>
        apply IH in E; destruct E as [[? ->] ?]
    end.

Lemma assignPairs_created Lhs Tok Rhs options : forall i mlog h0 h h' r,
  length h0 <= length h -> createdBetween h0 h mlog ->
  assignPairs expressionToMLOG Lhs Tok Rhs options i mlog h = (h', r) ->
  h `prefix_of` h' /\ match r with Ok l => createdBetween h0 h' l | _ => True end.
Proof.
  induction Lhs as [|x Lhs IH]; simpl; intros i mlog h0 h h' r Hle C H.
  - inv_M. split; [reflexivity | exact C].
  - inv_M; use_calls; try (split; [solve_prefix | exact I]).
    apply (IH _ _ h0) in H; [| lens | solve_created].
    destruct H as [[? ->] H]. split; [solve_prefix | exact H].
Qed.

Lemma assignStmtToMLOG_allocatesOnly Lhs Tok Rhs options :
  allocatesOnly (assignStmtToMLOG expressionToMLOG Lhs Tok Rhs options).
Proof.
  intros h h' r H. unfold assignStmtToMLOG in H.
  destruct (negb _).
  - inv_M; use_calls; try (split; [solve_prefix | exact I]).
    split; [solve_prefix | solve_created].
  - eapply assignPairs_created in H; [exact H | lia | apply inRange_nil].
Qed.

Lemma rangeBlock_created options List :
  Forall (fun s => allocatesOnly (lower s options)) List ->
  forall results h0 h h' r,
    length h0 <= length h -> createdBetween h0 h results ->
    rangeBlock (fun s => lower s options) List results h = (h', r) ->
    h `prefix_of` h' /\ match r with Ok l => createdBetween h0 h' l | _ => True end.
Proof.
  induction 1 as [|s List IHs _ IH]; intros results h0 h h' r Hle C H.
  - unfold rangeBlock in H. inv_M. split; [reflexivity | exact C].
  - change (bind (lower s options)
              (fun ins => rangeBlock (fun s => lower s options) List (results ++ ins)) h
            = (h', r)) in H.
    inv_M; use_calls; try (split; [solve_prefix | exact I]).
    apply (IH _ h0) in H; [| lens | solve_created].
    destruct H as [[? ->] H]. split; [solve_prefix | exact H].
Qed.

Lemma forCondition_created Cond h h' r :
  forCondition jumpOperators Cond h = (h', r) ->
  h `prefix_of` h' /\
  match r with Ok p => p = length h /\ length h' = S (length h) | _ => True end.
Proof.
  intros H. unfold forCondition in H.
  destruct Cond; inv_M; try (split; [reflexivity | exact I]).
  all: use_calls; try (split; [reflexivity | exact I]).
  split; [solve_prefix | split; [reflexivity | lens]].
Qed.

Lemma ifCondition_created Cond options results h0 h h' r :
  length h0 <= length h -> createdBetween h0 h results ->
  ifCondition expressionToMLOG Cond options results h = (h', r) ->
  h `prefix_of` h' /\
  match r with Ok c => createdBetween h0 h' c.2 | _ => True end.
Proof.
  intros Hle C H. unfold ifCondition in H.
  destruct Cond; inv_M; use_calls; try (split; [solve_prefix | exact I]).
  all: split; [solve_prefix | simpl; first [exact C | solve_created]].
Qed.

Lemma returnResultVar_created returnValue options results h0 h h' r :
  length h0 <= length h -> createdBetween h0 h results ->
  returnResultVar expressionToMLOG returnValue options results h = (h', r) ->
  h `prefix_of` h' /\
  match r with Ok c => createdBetween h0 h' c.2 | _ => True end.
Proof.
  intros Hle C H. unfold returnResultVar in H.
  destruct returnValue; inv_M; use_calls; try (split; [solve_prefix | exact I]).
  all: split; [solve_prefix | simpl; first [exact C | solve_created]].
Qed.

Ltac use_acc h IHBlock :=
  repeat match goal with
    | E : ifCondition _ _ _ _ _ = _ |- _ =>
        apply (ifCondition_created _ _ _ h) in E;
        [destruct E as [[? ->] ?] | lens | solve_created]
    | E : returnResultVar _ _ _ _ _ = _ |- _ =>
        apply (returnResultVar_created _ _ _ h) in E;
        [destruct E as [[? ->] ?] | lens | solve_created]
    | E : rangeBlock _ _ [] ?hh = _ |- _ =>
        apply (IHBlock hh) in E;
        [destruct E as [[? ->] ?] | lens | apply inRange_nil]
    | E : forCondition _ _ _ = _ |- _ =>
        apply forCondition_created in E; destruct E as [[? ->] ?]
    | H : _ /\ _ |- _ => destruct H
    | _ => progress use_calls
    end.

Theorem statementToMLOG_allocatesOnly statement options :
  allocatesOnly (lower statement options).
Proof.
  induction statement
    as [ | Init Cond Post Body IHInit IHPost IHBody | X
       | Init Cond Body Else IHInit IHBody IHElse | Lhs Tok Rhs | Results
       | List IHList | X Tok | | Tok Label | Label S IHS | Call | Call
       | Key Value Tok X Body IHBody ] using Stmt_nested_ind;
    intros h h' r H; simpl in H.
  all: try (inv_M; split; [reflexivity | exact I]).
  all: pose proof assignStmtToMLOG_allocatesOnly as IHAssign.
  all: try pose proof (rangeBlock_created options _ IHBody []) as IHBlock.
  all: try pose proof (rangeBlock_created options _ IHList []) as IHBlock.
  all: inv_M;
    match goal with |- ?h0 `prefix_of` _ /\ _ => use_acc h0 IHBlock end;
    simpl in *; subst.
  all: try (split; [solve_prefix | exact I]).
  all: try (split; [solve_prefix | assumption]).
  all: try (split; [solve_prefix | solve_created]).
Qed.

End LoweringFacts.

(** ** Addresses *)

Section LinearizationFacts.

Variable trampolineRows : nat.

Local Abbreviation totalRows := (totalRows trampolineRows).
Local Abbreviation address := (address trampolineRows).

Lemma totalRows_app h l1 l2 :
  totalRows h (l1 ++ l2) = totalRows h l1 + totalRows h l2.
Proof. induction l1 as [|p l1 IH]; simpl; [reflexivity | rewrite IH; lia]. Qed.

Lemma totalRows_cons h p l :
  totalRows h (p :: l) = rows trampolineRows h p + totalRows h l.
Proof. reflexivity. Qed.

Lemma totalRows_nil h : totalRows h [] = 0.
Proof. reflexivity. Qed.

Lemma address_app_notin h l1 l2 p : forall base,
  p ∉ l1 ->
  address h base (l1 ++ l2) p = address h (base + Z.of_nat (totalRows h l1)) l2 p.
Proof.
  induction l1 as [|q l1 IH]; intros base Hp; simpl.
  - f_equal. lia.
  - apply not_elem_of_cons in Hp. destruct Hp as [Hq Hp].
    destruct (decide (q = p)); [congruence |].
    rewrite IH by exact Hp. f_equal. lia.
Qed.

Lemma address_here h base l p : address h base (p :: l) p = Some base.
Proof. simpl. destruct (decide (p = p)); [reflexivity | congruence]. Qed.

Lemma address_middle h base l1 l2 p :
  p ∉ l1 ->
  address h base (l1 ++ p :: l2) p = Some (base + Z.of_nat (totalRows h l1))%Z.
Proof. intros Hp. rewrite address_app_notin by exact Hp. apply address_here. Qed.

Lemma address_split h base program l1 p l2 :
  NoDup program -> program = l1 ++ p :: l2 ->
  address h base program p = Some (base + Z.of_nat (totalRows h l1))%Z.
Proof.
  intros N ->. apply address_middle. apply NoDup_app in N.
  destruct N as (_ & N & _). intros Hin. apply (N _ Hin). left.
Qed.

End LinearizationFacts.

(** Arenas and pointers in the form [h ++ cells] and [length h + k]. *)
Ltac norm_heap :=
  rewrite ?(@length_app Object); simpl length;
  rewrite <- ?Nat.add_assoc; simpl Nat.add;
  rewrite <- ?(@app_assoc Object); simpl app.

Lemma bind_alloc {B} o (k : ptr -> M B) h : bind (alloc o) k h = k (length h) (h ++ [o]).
Proof. reflexivity. Qed.

Lemma lookup_app_at (h l : Heap) i k : i = length h + k -> (h ++ l) !! i = l !! k.
Proof. intros ->. rewrite lookup_app_r by lia. f_equal. lia. Qed.

(** ** The claims about statement lowering *)

Ltac run :=
  repeat first
    [ erewrite bind_Ok by eassumption
    | erewrite bind_Err by eassumption
    | erewrite bind_Panic by eassumption ].

Section Claims.

Variable jumpOperators : Token -> option string.
Variable FunctionReturnVariable : string.
Variable expressionToMLOG : list Resolvable -> Expr -> Options -> M (list ptr).
Variable trampolineRows : nat.

Local Abbreviation lower :=
  (statementToMLOG jumpOperators FunctionReturnVariable expressionToMLOG).
Local Abbreviation lowerAll :=
  (lowerEach jumpOperators FunctionReturnVariable expressionToMLOG).

(** *** Blocks *)

Lemma lower_BlockStmt List options :
  lower (BlockStmt List) options = rangeBlock (fun s => lower s options) List [].
Proof. reflexivity. Qed.

Lemma rangeBlock_cons rec s List results h :
  rangeBlock rec (s :: List) results h
  = bind (rec s) (fun ins => rangeBlock rec List (results ++ ins)) h.
Proof. reflexivity. Qed.

Lemma rangeBlock_lowerEach options List : forall results h,
  rangeBlock (fun s => lower s options) List results h
  = bind (lowerAll List options) (fun outs => ret (results ++ concat outs)) h.
Proof.
  induction List as [|s List IH]; intros results h.
  - unfold rangeBlock, bind, ret. simpl. now rewrite app_nil_r.
  - rewrite rangeBlock_cons. simpl lowerEach.
    rewrite bind_assoc. apply bind_ext. intros out h1.
    rewrite IH, bind_assoc. apply bind_ext. intros outs h2.
    rewrite bind_ret_l. simpl. now rewrite app_assoc.
Qed.

(** C4.  When the statements of a block lower one after the other to the
    instruction lists [outs], the block lowers to their concatenation, in
    the same order; the empty block lowers to the empty list. *)
Theorem block_lowers_to_concatenation List options h h' outs :
  lowerAll List options h = (h', Ok outs) ->
  lower (BlockStmt List) options h = (h', Ok (concat outs))
  /\ lower (BlockStmt []) options h = (h, Ok []).
Proof.
  intros H. split; [| reflexivity].
  rewrite lower_BlockStmt, rangeBlock_lowerEach.
  now rewrite (bind_Ok _ _ _ _ _ H).
Qed.

(** *** Loops *)

(** C5.  A [for] loop whose body has no statement lowers to the empty
    instruction list and leaves the arena as it was: nothing is created
    for its initializer, its condition or its post-statement, whatever
    they are. *)
Theorem for_empty_body_lowers_to_nothing Init Cond Post options h :
  lower (ForStmt Init Cond Post []) options h = (h, Ok []).
Proof. reflexivity. Qed.

Lemma lower_ForStmt_nonempty Init Cond Post Body options h :
  Body <> [] ->
  lower (ForStmt Init Cond Post Body) options h
  = (initMlog <- lower Init options ;;
     loopStartJump <- forCondition jumpOperators Cond ;;
     bodyMLOG <- lower (BlockStmt Body) options ;;
     instructions <- lower Post options ;;
     match bodyMLOG with
     | first :: _ =>
         _ <- setJumpTarget loopStartJump first ;;
         ret (((([] ++ initMlog) ++ bodyMLOG) ++ instructions) ++ [loopStartJump])
     | [] => panic "runtime error: index out of range [0] with length 0"
     end) h.
Proof. destruct Body; [congruence | reflexivity]. Qed.

Lemma forCondition_accepts X Op Y translatedOp leftSide rightSide h :
  jumpOperators Op = Some translatedOp ->
  asOperand X = Some leftSide -> asOperand Y = Some rightSide ->
  forCondition jumpOperators (BinaryExpr X Op Y) h
  = (h ++ [MLOGJump "Jump to start of loop" [Value translatedOp; leftSide; rightSide] None],
     Ok (length h)).
Proof.
  intros HOp HX HY. unfold forCondition. rewrite HOp.
  destruct X; try discriminate HX; destruct Y; try discriminate HY;
    simpl in *; inversion HX; inversion HY; reflexivity.
Qed.

(** C10 (amended).  For a [for] loop with a non-empty body: without an
    initializer the lowering fails at once with "statement type not
    supported: <nil>"; without a post-statement it fails with the same
    error once the initializer, the condition and the body have been
    lowered without error. *)
Theorem for_absent_clause_not_supported Init Cond Post Body options h :
  Body <> [] ->
  lower (ForStmt NilStmt Cond Post Body) options h
    = (h, Err "statement type not supported: <nil>")
  /\ (forall h1 initMlog h2 loopStartJump h3 bodyMLOG,
        lower Init options h = (h1, Ok initMlog) ->
        forCondition jumpOperators Cond h1 = (h2, Ok loopStartJump) ->
        lower (BlockStmt Body) options h2 = (h3, Ok bodyMLOG) ->
        lower (ForStmt Init Cond NilStmt Body) options h
          = (h3, Err "statement type not supported: <nil>")).
Proof.
  intros HBody. split.
  - rewrite lower_ForStmt_nonempty by exact HBody. reflexivity.
  - intros h1 initMlog h2 loopStartJump h3 bodyMLOG HInit HCond HBlock.
    rewrite lower_ForStmt_nonempty by exact HBody.
    run. reflexivity.
Qed.

(** *** Return *)

(** C6.  A [return] with more than one result is rejected with an error.
    With at most one result whose value can be lowered, the lowering
    succeeds and the last instruction of its list is the trampoline
    marker, with or without a returned value. *)
Theorem return_ends_with_trampoline Results options h :
  (1 < length Results ->
   lower (ReturnStmt Results) options h
     = (h, Err "only single value returns are supported"))
  /\ (length Results <= 1 ->
      returnValueLowers expressionToMLOG Results options h ->
      exists h' instructions trampoline,
        lower (ReturnStmt Results) options h = (h', Ok instructions)
        /\ last instructions = Some trampoline
        /\ h' !! trampoline = Some MLOGTrampolineBack).
Proof.
  split.
  - intros H. simpl. destruct (1 <? length Results)%nat eqn:E; [reflexivity |].
    apply Nat.ltb_ge in E. lia.
  - intros H V. simpl. destruct (1 <? length Results)%nat eqn:E.
    { apply Nat.ltb_lt in E. lia. }
    clear E. destruct Results as [|returnValue Results].
    { eexists _, _, _. split; [reflexivity |]. split; [reflexivity |].
      simpl. apply list_lookup_middle. reflexivity. }
    destruct returnValue; simpl in V; try contradiction;
      try (destruct V as (h1 & ins & V));
      unfold returnResultVar, bind, alloc, ret; simpl; try rewrite V; simpl;
      eexists _, _, _;
      (split; [reflexivity |]); rewrite ?last_snoc;
      (split; [reflexivity |]);
      apply list_lookup_middle; reflexivity.
Qed.

(** *** Increment and decrement *)

Lemma incdec_identifier Name Tok options h :
  lower (IncDecStmt (Ident Name) Tok) options h
  = (h ++ [MLOG "Execute for loop post condition increment/decrement"
             [[Value "op"; Value (if bool_decide (Tok = DEC) then "sub" else "add");
               NormalVariable Name; NormalVariable Name; Value "1"]]],
     Ok [length h]).
Proof. reflexivity. Qed.

Lemma incdec_non_identifier X Tok options h :
  (forall Name, X <> Ident Name) ->
  exists msg, lower (IncDecStmt X Tok) options h = (h, Panic msg).
Proof.
  intros H. destruct X; try (eexists; reflexivity). now destruct (H Name).
Qed.

(** C7.  The operand of [a[0]++] is not a bare identifier: the lowering
    does not return an error, it panics in the type assertion of line
    244. *)
Theorem incdec_index_operand_panics Tok options h :
  lower (IncDecStmt (IndexExpr (Ident "a") (BasicLit INT "0")) Tok) options h
  = (h, Panic "interface conversion: ast.Expr is *ast.IndexExpr, not *ast.Ident").
Proof. reflexivity. Qed.

(** *** Assignment *)

Lemma assign_mismatch Lhs Tok Rhs options h :
  length Lhs <> length Rhs -> length Rhs <> 1 ->
  assignStmtToMLOG expressionToMLOG Lhs Tok Rhs options h
  = (h, Err "mismatched variable assignment sides").
Proof.
  intros H1 H2. unfold assignStmtToMLOG.
  destruct (length Lhs =? length Rhs)%nat eqn:E.
  { apply Nat.eqb_eq in E. contradiction. }
  simpl. destruct Rhs as [|r [|r' Rhs]]; try reflexivity. simpl in H2. lia.
Qed.

Lemma assignPairs_non_identifier Lhs Tok Rhs options : forall i mlog h h' l,
  Exists (fun x => forall Name, x <> Ident Name) Lhs ->
  assignPairs expressionToMLOG Lhs Tok Rhs options i mlog h <> (h', Ok l).
Proof.
  induction Lhs as [|x Lhs IH]; intros i mlog h h' l HE H.
  - inversion HE.
  - simpl in H. destruct x; try discriminate H.
    inversion HE as [? ? Hx | ? ? Hrest]; subst; [now destruct (Hx Name) |].
    destruct (_ && _); [discriminate H |].
    destruct (Rhs !! i); [| discriminate H].
    apply bind_inv in H. destruct H as [(h1 & a & E & H) | [(? & _ & R) | (? & _ & R)]];
      try discriminate R.
    exact (IH _ _ _ _ _ Hrest H).
Qed.

Lemma assign_n_to_n_non_identifier Lhs Tok Rhs options h h' l :
  length Lhs = length Rhs ->
  Exists (fun x => forall Name, x <> Ident Name) Lhs ->
  assignStmtToMLOG expressionToMLOG Lhs Tok Rhs options h <> (h', Ok l).
Proof.
  intros HL HE. unfold assignStmtToMLOG.
  rewrite (proj2 (Nat.eqb_eq _ _) HL). simpl.
  now apply assignPairs_non_identifier.
Qed.

Lemma assignLeftSide_non_identifier Lhs h :
  Exists (fun x => forall Name, x <> Ident Name) Lhs ->
  exists msg, assignLeftSide Lhs h = (h, Panic msg).
Proof.
  induction 1 as [x Lhs Hx | x Lhs _ IH].
  - destruct x; try (eexists; reflexivity). now destruct (Hx Name).
  - destruct IH as [msg IH]. destruct x; try (eexists; reflexivity).
    exists msg. simpl. unfold bind at 1. simpl. now rewrite (bind_Panic _ _ _ _ _ IH).
Qed.

Lemma assign_n_to_1_non_identifier Lhs Tok rhs options h :
  length Lhs <> 1 ->
  Exists (fun x => forall Name, x <> Ident Name) Lhs ->
  exists msg, assignStmtToMLOG expressionToMLOG Lhs Tok [rhs] options h = (h, Panic msg).
Proof.
  intros HL HE. unfold assignStmtToMLOG.
  destruct (length Lhs =? length [rhs])%nat eqn:E.
  { apply Nat.eqb_eq in E. contradiction. }
  simpl. destruct (assignLeftSide_non_identifier Lhs h HE) as [msg Hm].
  exists msg. now rewrite (bind_Panic _ _ _ _ _ Hm).
Qed.

(** C8.  In [a[0], b = f()], two destinations and one source, the first
    destination is not a bare identifier: the lowering does not return an
    error, it panics in the type assertion of line 277. *)
Theorem assign_n_to_1_index_destination_panics Tok options h :
  assignStmtToMLOG expressionToMLOG
    [IndexExpr (Ident "a") (BasicLit INT "0"); Ident "b"] Tok
    [CallExpr (Ident "f") []] options h
  = (h, Panic "interface conversion: ast.Expr is *ast.IndexExpr, not *ast.Ident").
Proof. reflexivity. Qed.

(** *** Conditionals *)

Lemma lower_IfStmt Init Cond Body Else options h :
  lower (IfStmt Init Cond Body Else) options h
  = (results <- ifInit jumpOperators FunctionReturnVariable expressionToMLOG Init options ;;
     cond <- ifCondition expressionToMLOG Cond options results ;;
     blockInstructions <- lower (BlockStmt Body) options ;;
     match blockInstructions, last blockInstructions with
     | blockFirst :: _, Some blockLast =>
         ifTarget <- alloc (StatementJumpTarget false blockFirst) ;;
         ifJump <- alloc (MLOGJump "Jump to if block if true"
                            [Value "equal"; cond.1; Value "1"] (Some ifTarget)) ;;
         afterIfTarget <- alloc (StatementJumpTarget true blockLast) ;;
         afterIfJump <- alloc (MLOGJump "Jump to after if block"
                                 [Value "always"] (Some afterIfTarget)) ;;
         if isNilStmt Else
         then ret (((cond.2 ++ [ifJump]) ++ [afterIfJump]) ++ blockInstructions)
         else
           elseInstructions <- lower Else options ;;
           match last elseInstructions with
           | Some elseLast =>
               afterElseTarget <- alloc (StatementJumpTarget true elseLast) ;;
               afterElseJump <- alloc (MLOGJump "Jump to after else block"
                                         [Value "always"] (Some afterElseTarget)) ;;
               _ <- setTargetStatement afterIfTarget afterElseJump ;;
               ret (((((cond.2 ++ [ifJump]) ++ [afterIfJump]) ++ blockInstructions)
                       ++ [afterElseJump]) ++ elseInstructions)
           | None => panic "runtime error: index out of range [-1]"
           end
     | _, _ => panic "runtime error: index out of range [0] with length 0"
     end) h.
Proof.
  simpl. unfold ifInit. destruct (isNilStmt Init).
  - rewrite !bind_ret_l. apply bind_ext. intros [condVar results] h1. reflexivity.
  - rewrite bind_assoc. apply bind_ext. intros ins h1. rewrite bind_ret_l.
    apply bind_ext. intros [condVar results] h2. reflexivity.
Qed.

(** C2 (amended).  [if x { y := 1 }], where the assignment lowers to one
    instruction of one row: the lowering is the conditional jump, the
    skip jump and the instruction of the block, in this order, three rows
    in all.  The conditional jump resolves to the address of the
    instruction of the block, the skip jump to the address after it. *)
Theorem if_without_else_example options h comment base :
  expressionToMLOG [NormalVariable "y"] (BasicLit INT "1") options h
    = (h ++ [MLOG comment [[Value "set"; NormalVariable "y"; Value "1"]]],
       Ok [length h]) ->
  let block := length h in
  let ifTarget := length h + 1 in
  let ifJump := length h + 2 in
  let afterIfTarget := length h + 3 in
  let afterIfJump := length h + 4 in
  let h' := h ++ [MLOG comment [[Value "set"; NormalVariable "y"; Value "1"]];
                  StatementJumpTarget false block;
                  MLOGJump "Jump to if block if true"
                    [Value "equal"; NormalVariable "x"; Value "1"] (Some ifTarget);
                  StatementJumpTarget true block;
                  MLOGJump "Jump to after if block" [Value "always"]
                    (Some afterIfTarget)] in
  let program := [ifJump; afterIfJump; block] in
  lower (IfStmt NilStmt (Ident "x")
           [AssignStmt [Ident "y"] DEFINE [BasicLit INT "1"]] NilStmt) options h
    = (h', Ok program)
  /\ totalRows trampolineRows h' program = 3
  /\ address trampolineRows h' base program block = Some (base + 2)%Z
  /\ jumpAddress trampolineRows h' base program ifJump = Some (base + 2)%Z
  /\ jumpAddress trampolineRows h' base program afterIfJump = Some (base + 3)%Z.
Proof.
  intros HSet block ifTarget ifJump afterIfTarget afterIfJump h' program.
  assert (L0 : h' !! block = Some (MLOG comment [[Value "set"; NormalVariable "y"; Value "1"]])).
  { unfold h'. rewrite (lookup_app_at h _ _ 0) by lia. reflexivity. }
  assert (L1 : h' !! ifTarget = Some (StatementJumpTarget false block)).
  { unfold h'. rewrite (lookup_app_at h _ _ 1) by lia. reflexivity. }
  assert (L2 : h' !! ifJump
               = Some (MLOGJump "Jump to if block if true"
                         [Value "equal"; NormalVariable "x"; Value "1"] (Some ifTarget))).
  { unfold h'. rewrite (lookup_app_at h _ _ 2) by lia. reflexivity. }
  assert (L3 : h' !! afterIfTarget = Some (StatementJumpTarget true block)).
  { unfold h'. rewrite (lookup_app_at h _ _ 3) by lia. reflexivity. }
  assert (L4 : h' !! afterIfJump
               = Some (MLOGJump "Jump to after if block" [Value "always"]
                         (Some afterIfTarget))).
  { unfold h'. rewrite (lookup_app_at h _ _ 4) by lia. reflexivity. }
  assert (R0 : rows trampolineRows h' block = 1) by (unfold rows; now rewrite L0).
  assert (R2 : rows trampolineRows h' ifJump = 1) by (unfold rows; now rewrite L2).
  assert (R4 : rows trampolineRows h' afterIfJump = 1) by (unfold rows; now rewrite L4).
  assert (A0 : address trampolineRows h' base program block = Some (base + 2)%Z).
  { unfold program. simpl. rewrite R2, R4.
    destruct (decide (ifJump = block)); [unfold ifJump, block in *; lia |].
    destruct (decide (afterIfJump = block)); [unfold afterIfJump, block in *; lia |].
    destruct (decide (block = block)); [f_equal; lia | congruence]. }
  split; [| split; [| split; [| split]]].
  - assert (HAssign : lower (AssignStmt [Ident "y"] DEFINE [BasicLit INT "1"]) options h
                       = (h ++ [MLOG comment [[Value "set"; NormalVariable "y"; Value "1"]]],
                          Ok [length h])).
    { simpl. unfold assignStmtToMLOG. simpl.
      rewrite bind_assoc, (bind_Ok _ _ _ _ _ HSet). reflexivity. }
    assert (HBlock : lower (BlockStmt [AssignStmt [Ident "y"] DEFINE [BasicLit INT "1"]])
                       options h
                     = (h ++ [MLOG comment [[Value "set"; NormalVariable "y"; Value "1"]]],
                        Ok [length h])).
    { rewrite lower_BlockStmt, rangeBlock_cons. rewrite (bind_Ok _ _ _ _ _ HAssign).
      reflexivity. }
    rewrite lower_IfStmt. unfold ifInit, ifCondition. simpl isNilStmt. cbv iota.
    rewrite !bind_ret_l. rewrite (bind_Ok _ _ _ _ _ HBlock).
    unfold bind, alloc, ret. simpl. norm_heap. reflexivity.
  - unfold program. simpl. rewrite R0, R2, R4. reflexivity.
  - exact A0.
  - unfold jumpAddress, resolve. rewrite L2, L1, A0. reflexivity.
  - unfold jumpAddress, resolve. rewrite L4, L3, A0, R0. f_equal. lia.
Qed.

(** *** Loops with a body, and conditionals *)

Hypothesis expressionToMLOG_allocatesOnly :
  forall ident expr options, allocatesOnly (expressionToMLOG ident expr options).

Local Abbreviation lower_allocatesOnly :=
  (statementToMLOG_allocatesOnly jumpOperators FunctionReturnVariable expressionToMLOG
     expressionToMLOG_allocatesOnly).

(** C1 (amended).  A [for] loop whose body has at least one statement and
    lowers to at least one instruction, whose condition is a binary
    comparison with an operator of the table and with two operands that
    are literals or bare identifiers, and whose initializer and
    post-statement lower: the lowering is the initializer's instructions,
    then the body's, then the post-statement's, then one jump.  That jump
    carries the translated operator and the two operands, its target is
    the first instruction of the body, and it occurs nowhere else in the
    list.  In the address order the target comes right after the
    initializer and the jump after the post-statement: the jump goes
    backwards, and the body is entered before the condition is looked
    at. *)
Theorem for_loop_is_check_after Init X Op Y Post Body options
    translatedOp leftSide rightSide h h1 initMlog h2 first rest h3 instructions base :
  Body <> [] ->
  jumpOperators Op = Some translatedOp ->
  asOperand X = Some leftSide ->
  asOperand Y = Some rightSide ->
  lower Init options h = (h1, Ok initMlog) ->
  lower (BlockStmt Body) options
    (h1 ++ [MLOGJump "Jump to start of loop"
              [Value translatedOp; leftSide; rightSide] None])
    = (h2, Ok (first :: rest)) ->
  lower Post options h2 = (h3, Ok instructions) ->
  let loopStartJump := length h1 in
  let jump := MLOGJump "Jump to start of loop"
                [Value translatedOp; leftSide; rightSide] (Some first) in
  let h' := <[loopStartJump := jump]> h3 in
  let beforeJump := initMlog ++ (first :: rest) ++ instructions in
  lower (ForStmt Init (BinaryExpr X Op Y) Post Body) options h
    = (h', Ok (beforeJump ++ [loopStartJump]))
  /\ h' !! loopStartJump = Some jump
  /\ (loopStartJump ∉ beforeJump)
  /\ address trampolineRows h' base (beforeJump ++ [loopStartJump]) first
       = Some (base + Z.of_nat (totalRows trampolineRows h' initMlog))%Z
  /\ address trampolineRows h' base (beforeJump ++ [loopStartJump]) loopStartJump
       = Some (base + Z.of_nat (totalRows trampolineRows h' beforeJump))%Z.
Proof.
  intros HBody HOp HX HY HInit HBlock HPost loopStartJump jump h' beforeJump.
  pose proof (forCondition_accepts _ _ _ _ _ _ h1 HOp HX HY) as HCond.
  destruct (lower_allocatesOnly _ _ _ _ _ HInit) as [_ CInit].
  destruct (lower_allocatesOnly _ _ _ _ _ HBlock) as [[k2 Hh2] CBlock].
  destruct (lower_allocatesOnly _ _ _ _ _ HPost) as [[k3 Hh3] CPost].
  assert (Hj : h3 !! loopStartJump
               = Some (MLOGJump "Jump to start of loop"
                         [Value translatedOp; leftSide; rightSide] None)).
  { rewrite Hh3, Hh2, <- !app_assoc. apply list_lookup_middle. reflexivity. }
  assert (HEq : lower (ForStmt Init (BinaryExpr X Op Y) Post Body) options h
                = (h', Ok (beforeJump ++ [loopStartJump]))).
  { rewrite lower_ForStmt_nonempty by exact HBody.
    run. unfold bind, setJumpTarget, ret. fold loopStartJump. rewrite Hj.
    unfold h', beforeJump, jump, loopStartJump. f_equal. f_equal.
    repeat (rewrite <- app_assoc; simpl). reflexivity. }
  destruct (lower_allocatesOnly _ _ _ _ _ HEq) as [_ [N _]].
  split; [exact HEq |]. split; [| split; [| split]].
  - apply list_lookup_insert_eq. apply lookup_lt_Some in Hj. exact Hj.
  - apply NoDup_app in N. destruct N as (_ & N & _).
    intros Hin. apply (N _ Hin). left.
  - apply (address_split _ _ _ _ initMlog first (rest ++ instructions ++ [loopStartJump]) N).
    unfold beforeJump. repeat (rewrite <- app_assoc; simpl). reflexivity.
  - apply (address_split _ _ _ _ beforeJump loopStartJump [] N). reflexivity.
Qed.

(** C3.  An [if] with an [else], both branches lowering to at least one
    instruction.  The list is: the instructions of the initializer and of
    the condition, the conditional jump, the skip jump, the then-block,
    the jump over the else-block, the else-block.  The conditional jump
    targets the first then-instruction; the skip jump has been retargeted
    to the position after the jump over the else-block, which is where
    the else-block begins; the jump over the else-block targets the
    position after the last else-instruction, the end of the list. *)
Theorem if_else_lowering Init Cond Body Else options h
    h1 initInstructions h2 condVar pre h3 thenFirst thenRest thenLast
    h5 elseFirst elseRest elseLast base :
  ifInit jumpOperators FunctionReturnVariable expressionToMLOG Init options h
    = (h1, Ok initInstructions) ->
  ifCondition expressionToMLOG Cond options initInstructions h1
    = (h2, Ok (condVar, pre)) ->
  lower (BlockStmt Body) options h2 = (h3, Ok (thenFirst :: thenRest)) ->
  last (thenFirst :: thenRest) = Some thenLast ->
  let ifTarget := length h3 in
  let ifJump := length h3 + 1 in
  let afterIfTarget := length h3 + 2 in
  let afterIfJump := length h3 + 3 in
  Else <> NilStmt ->
  lower Else options
    (h3 ++ [StatementJumpTarget false thenFirst;
            MLOGJump "Jump to if block if true"
              [Value "equal"; condVar; Value "1"] (Some ifTarget);
            StatementJumpTarget true thenLast;
            MLOGJump "Jump to after if block" [Value "always"] (Some afterIfTarget)])
    = (h5, Ok (elseFirst :: elseRest)) ->
  last (elseFirst :: elseRest) = Some elseLast ->
  let afterElseTarget := length h5 in
  let afterElseJump := length h5 + 1 in
  let h' := <[afterIfTarget := StatementJumpTarget true afterElseJump]>
              (h5 ++ [StatementJumpTarget true elseLast;
                      MLOGJump "Jump to after else block" [Value "always"]
                        (Some afterElseTarget)]) in
  let beforeElse := pre ++ [ifJump; afterIfJump] ++ (thenFirst :: thenRest)
                        ++ [afterElseJump] in
  let program := beforeElse ++ elseFirst :: elseRest in
  lower (IfStmt Init Cond Body Else) options h = (h', Ok program)
  /\ h' !! ifJump = Some (MLOGJump "Jump to if block if true"
                           [Value "equal"; condVar; Value "1"] (Some ifTarget))
  /\ h' !! ifTarget = Some (StatementJumpTarget false thenFirst)
  /\ h' !! afterIfJump = Some (MLOGJump "Jump to after if block" [Value "always"]
                                (Some afterIfTarget))
  /\ h' !! afterIfTarget = Some (StatementJumpTarget true afterElseJump)
  /\ h' !! afterElseJump = Some (MLOGJump "Jump to after else block" [Value "always"]
                                  (Some afterElseTarget))
  /\ h' !! afterElseTarget = Some (StatementJumpTarget true elseLast)
  /\ address trampolineRows h' base program thenFirst
       = Some (base + Z.of_nat (totalRows trampolineRows h' pre) + 2)%Z
  /\ jumpAddress trampolineRows h' base program ifJump
       = address trampolineRows h' base program thenFirst
  /\ address trampolineRows h' base program elseFirst
       = Some (base + Z.of_nat (totalRows trampolineRows h' beforeElse))%Z
  /\ jumpAddress trampolineRows h' base program afterIfJump
       = address trampolineRows h' base program elseFirst
  /\ jumpAddress trampolineRows h' base program afterElseJump
       = Some (base + Z.of_nat (totalRows trampolineRows h' program))%Z.
Proof.
  intros HInit HCond HThen HThenLast ifTarget ifJump afterIfTarget afterIfJump
    HNotNil HElse HElseLast afterElseTarget afterElseJump h' beforeElse program.
  assert (HNil : isNilStmt Else = false) by (destruct Else; [contradiction | reflexivity ..]).
  destruct (lower_allocatesOnly _ _ _ _ _ HElse) as [[k5 Hh5] _].
  assert (Lold : forall k o,
             [StatementJumpTarget false thenFirst;
              MLOGJump "Jump to if block if true"
                [Value "equal"; condVar; Value "1"] (Some ifTarget);
              StatementJumpTarget true thenLast;
              MLOGJump "Jump to after if block" [Value "always"] (Some afterIfTarget)]
               !! k = Some o ->
             (h5 ++ [StatementJumpTarget true elseLast;
                     MLOGJump "Jump to after else block" [Value "always"]
                       (Some afterElseTarget)]) !! (length h3 + k) = Some o).
  { intros k o Hk. apply lookup_app_l_Some. rewrite Hh5.
    apply lookup_app_l_Some. now rewrite (lookup_app_at h3 _ _ k) by lia. }
  assert (HEq : lower (IfStmt Init Cond Body Else) options h = (h', Ok program)).
  { subst ifTarget ifJump afterIfTarget afterIfJump afterElseTarget afterElseJump
      h' beforeElse program.
    rewrite lower_IfStmt. run. cbv beta iota. rewrite HThenLast.
    rewrite !bind_alloc. rewrite HNil. norm_heap. simpl fst. simpl snd.
    rewrite (bind_Ok _ _ _ _ _ HElse). rewrite HElseLast.
    rewrite !bind_alloc. norm_heap.
    unfold bind, setTargetStatement.
    rewrite (Lold 2 _ eq_refl). unfold ret.
    f_equal. f_equal. repeat (rewrite <- app_assoc; simpl). reflexivity. }
  assert (Hlen5 : length h3 + 4 <= length h5).
  { rewrite Hh5, !length_app. simpl. lia. }
  assert (LifJump : h' !! ifJump
                    = Some (MLOGJump "Jump to if block if true"
                              [Value "equal"; condVar; Value "1"] (Some ifTarget))).
  { unfold h'. rewrite list_lookup_insert_ne by (unfold afterIfTarget, ifJump; lia).
    apply (Lold 1). reflexivity. }
  assert (LifTarget : h' !! ifTarget = Some (StatementJumpTarget false thenFirst)).
  { unfold h'. rewrite list_lookup_insert_ne by (unfold afterIfTarget, ifTarget; lia).
    unfold ifTarget. rewrite <- (Nat.add_0_r (length h3)). apply (Lold 0). reflexivity. }
  assert (LafterIfJump : h' !! afterIfJump
                         = Some (MLOGJump "Jump to after if block" [Value "always"]
                                   (Some afterIfTarget))).
  { unfold h'. rewrite list_lookup_insert_ne by (unfold afterIfTarget, afterIfJump; lia).
    apply (Lold 3). reflexivity. }
  assert (LafterIfTarget : h' !! afterIfTarget
                           = Some (StatementJumpTarget true afterElseJump)).
  { unfold h'. apply list_lookup_insert_eq.
    exact (lookup_lt_Some _ _ _ (Lold 2 _ eq_refl)). }
  assert (LafterElseJump : h' !! afterElseJump
                           = Some (MLOGJump "Jump to after else block" [Value "always"]
                                     (Some afterElseTarget))).
  { unfold h'. rewrite list_lookup_insert_ne by (unfold afterIfTarget, afterElseJump; lia).
    now rewrite (lookup_app_at h5 _ _ 1) by reflexivity. }
  assert (LafterElseTarget : h' !! afterElseTarget
                             = Some (StatementJumpTarget true elseLast)).
  { unfold h'. rewrite list_lookup_insert_ne by (unfold afterIfTarget, afterElseTarget; lia).
    now rewrite (lookup_app_at h5 _ _ 0) by (unfold afterElseTarget; lia). }
  assert (RifJump : rows trampolineRows h' ifJump = 1)
    by (unfold rows; now rewrite LifJump).
  assert (RafterIfJump : rows trampolineRows h' afterIfJump = 1)
    by (unfold rows; now rewrite LafterIfJump).
  assert (RafterElseJump : rows trampolineRows h' afterElseJump = 1)
    by (unfold rows; now rewrite LafterElseJump).
  destruct (lower_allocatesOnly _ _ _ _ _ HEq) as [_ [N _]].
  assert (Athen : address trampolineRows h' base program thenFirst
                  = Some (base + Z.of_nat (totalRows trampolineRows h' pre) + 2)%Z).
  { rewrite (address_split _ _ _ _ (pre ++ [ifJump; afterIfJump]) thenFirst
               (thenRest ++ [afterElseJump] ++ elseFirst :: elseRest) N).
    - rewrite totalRows_app, !totalRows_cons, totalRows_nil, RifJump, RafterIfJump.
      f_equal. lia.
    - unfold program, beforeElse. repeat (rewrite <- app_assoc; simpl). reflexivity. }
  assert (Aelse : address trampolineRows h' base program elseFirst
                  = Some (base + Z.of_nat (totalRows trampolineRows h' beforeElse))%Z).
  { apply (address_split _ _ _ _ beforeElse elseFirst elseRest N). reflexivity. }
  assert (AafterElseJump :
            address trampolineRows h' base program afterElseJump
            = Some (base + Z.of_nat (totalRows trampolineRows h'
                                       (pre ++ [ifJump; afterIfJump]
                                            ++ thenFirst :: thenRest)))%Z).
  { apply (address_split _ _ _ _ _ afterElseJump (elseFirst :: elseRest) N).
    unfold program, beforeElse. repeat (rewrite <- app_assoc; simpl). reflexivity. }
  repeat split; try assumption.
  - unfold jumpAddress, resolve. rewrite LifJump, LifTarget.
    now destruct (address _ _ _ _ thenFirst).
  - unfold jumpAddress, resolve. rewrite LafterIfJump, LafterIfTarget.
    rewrite AafterElseJump, RafterElseJump, Aelse. f_equal.
    unfold beforeElse.
    rewrite !totalRows_app, !totalRows_cons, !totalRows_nil, RafterElseJump. lia.
  - unfold jumpAddress, resolve. rewrite LafterElseJump, LafterElseTarget.
    apply last_Some in HElseLast. destruct HElseLast as [elseInit HElseInit].
    rewrite (address_split _ _ _ _ (beforeElse ++ elseInit) elseLast [] N)
      by (unfold program; rewrite HElseInit; now rewrite app_assoc).
    f_equal. unfold program. rewrite HElseInit, app_assoc.
    rewrite (totalRows_app _ _ (_ ++ _) [elseLast]), totalRows_cons, totalRows_nil.
    lia.
Qed.

End Claims.

(** ** Rendering *)

#[local] Arguments String.append : simpl nomatch.

Lemma append_assoc (a b c : string) : (a +:+ b) +:+ c = a +:+ (b +:+ c).
Proof. induction a as [|x a IH]; simpl; [reflexivity | now rewrite IH]. Qed.

Lemma append_nil_r (a : string) : a +:+ "" = a.
Proof. induction a as [|x a IH]; simpl; [reflexivity | now rewrite IH]. Qed.

Lemma wrapInt_isInt z : isInt z -> wrapInt z = z.
Proof.
  unfold isInt, wrapInt. intros H.
  rewrite Z.mod_small by lia. lia.
Qed.

Lemma plain_uint d : plain (NilEmpty.string_of_uint d).
Proof. induction d; simpl; repeat split; try discriminate; exact IHd. Qed.

Lemma plain_formatInt n : plain (formatInt n).
Proof.
  unfold formatInt. destruct (Z.to_int n) as [d|d]; simpl.
  - destruct d; try apply (plain_uint (_ _)); simpl; repeat split; discriminate.
  - split; [split; discriminate |].
    destruct d; try apply (plain_uint (_ _)); simpl; repeat split; discriminate.
Qed.


Lemma spaces_S k : spaces (S k) = String " " (spaces k).
Proof. reflexivity. Qed.

Lemma takeUntilColon_spaces k s :
  takeUntilColon (spaces k +:+ s) = spaces k +:+ takeUntilColon s.
Proof.
  induction k as [|k IH]; [reflexivity |].
  rewrite spaces_S. simpl. now rewrite IH.
Qed.

Lemma takeUntilColon_plain s rest :
  plain s -> takeUntilColon (s +:+ String ":" rest) = s.
Proof.
  induction s as [|c s IH]; simpl; [reflexivity |].
  intros [[Hc _] Hs]. destruct (Ascii.eqb_spec c ":"); [contradiction |].
  now rewrite IH.
Qed.

Lemma dropSpaces_spaces k s : dropSpaces (spaces k +:+ s) = dropSpaces s.
Proof.
  induction k as [|k IH]; [reflexivity |].
  rewrite spaces_S. simpl. exact IH.
Qed.

Lemma dropSpaces_plain s : plain s -> dropSpaces s = s.
Proof.
  destruct s as [|c s]; simpl; [reflexivity |].
  intros [[_ Hc] _]. now destruct (Ascii.eqb_spec c " ").
Qed.

Lemma int_of_string_formatInt n :
  NilZero.int_of_string (formatInt n) = Some (Z.to_int n).
Proof.
  unfold formatInt. apply NilZero.isi.
  - destruct n; simpl; try discriminate.
    intros [= H]. now apply DecimalPos.Unsigned.to_uint_nonnil in H.
  - destruct n; simpl; try discriminate.
    intros [= H]. now apply DecimalPos.Unsigned.to_uint_nonnil in H.
Qed.

(** The address in front of a row can be read back, whatever follows. *)
Lemma readAddress_Sprintf_3d n rest : readAddress (Sprintf_3d n +:+ rest) = Some n.
Proof.
  unfold readAddress, Sprintf_3d, padLeft.
  rewrite !append_assoc. simpl.
  rewrite takeUntilColon_spaces, takeUntilColon_plain by apply plain_formatInt.
  rewrite dropSpaces_spaces, dropSpaces_plain by apply plain_formatInt.
  rewrite int_of_string_formatInt. simpl. now rewrite DecimalZ.of_to.
Qed.

Section RenderingFacts.

Variable GetValue : Resolvable -> string.
Variable GetComment : Object -> string.
Variable RuneCountInString : string -> nat.

Local Abbreviation render := (MLOGToString GetValue GetComment RuneCountInString).
Local Abbreviation numbered := (numberedRows GetValue GetComment RuneCountInString).

Lemma renderRows_numbered options statement statements : forall lineNumber result,
  Numbers options = true ->
  (- 2 ^ 63 <= lineNumber)%Z ->
  (lineNumber + Z.of_nat (length statements) <= 2 ^ 63)%Z ->
  renderRows GetValue GetComment RuneCountInString (Some options) statements statement
    lineNumber result
  = Ok (result +:+ concatRows (numbered options statement lineNumber statements)).
Proof.
  induction statements as [|line statements IH]; intros lineNumber result HN Hlo Hhi.
  - simpl. now rewrite append_nil_r.
  - cbn [renderRows]. rewrite HN.
    assert (Hrow : (if Comments options
                    then ((result +:+ Sprintf_3d lineNumber)
                            +:+ Sprintf_45s RuneCountInString (joinTokens GetValue line ""))
                           +:+ (" // " +:+ GetComment statement)
                    else (result +:+ Sprintf_3d lineNumber) +:+ joinTokens GetValue line "")
                   +:+ newline
                   = result +:+ (Sprintf_3d lineNumber
                                   +:+ rowBody GetValue GetComment RuneCountInString
                                         options statement line)).
    { unfold rowBody. destruct (Comments options); now rewrite !append_assoc. }
    rewrite Hrow. destruct statements as [|line' statements].
    + simpl. now rewrite append_nil_r.
    + simpl length in Hhi.
      rewrite wrapInt_isInt by (unfold isInt; lia).
      rewrite IH by (try assumption; simpl length; lia).
      simpl. now rewrite !append_assoc.
Qed.

Lemma numbered_length options statement statements : forall lineNumber,
  length (numbered options statement lineNumber statements) = length statements.
Proof. induction statements as [|l s IH]; intros n; simpl; [reflexivity | now rewrite IH]. Qed.

Lemma numbered_readAddress options statement statements : forall lineNumber i row,
  numbered options statement lineNumber statements !! i = Some row ->
  readAddress row = Some (lineNumber + Z.of_nat i)%Z.
Proof.
  induction statements as [|l s IH]; intros n i row H; [discriminate H |].
  destruct i as [|i]; simpl in H.
  - injection H as <-. rewrite readAddress_Sprintf_3d. f_equal. lia.
  - apply IH in H. rewrite H. f_equal. lia.
Qed.

(** C9 (amended).  With the addresses shown, and as long as the address of
    every row fits in an [int], the text of an instruction is the
    sequence of its rows, each one starting with its address, and the
    address read back from the row number [i] is the starting address
    plus [i]. *)
Theorem numbered_rows_count_up options statements statement lineNumber :
  Numbers options = true ->
  (- 2 ^ 63 <= lineNumber)%Z ->
  (lineNumber + Z.of_nat (length statements) <= 2 ^ 63)%Z ->
  let rendered := numbered options statement lineNumber statements in
  render (Some options) statements statement lineNumber = Ok (concatRows rendered)
  /\ length rendered = length statements
  /\ forall i row, rendered !! i = Some row ->
       readAddress row = Some (lineNumber + Z.of_nat i)%Z.
Proof.
  intros HN Hlo Hhi rendered. split; [| split].
  - unfold MLOGToString. now rewrite renderRows_numbered.
  - apply numbered_length.
  - apply numbered_readAddress.
Qed.

End RenderingFacts.

(** ** The lowering and the rendering on examples *)

Lemma Sample_expressionToMLOG_allocatesOnly ident expr options :
  allocatesOnly (Sample.expressionToMLOG ident expr options).
Proof.
  intros h h' r H. unfold Sample.expressionToMLOG in H.
  destruct ident as [|dest [|dest' ident]]; destruct expr; inv_M.
  all: try (split; [reflexivity | exact I]).
  all: split; [solve_prefix | solve_created].
Qed.

(** [for i := 0; i < n; i++ { x = i }] *)
Lemma for_loop_is_check_after_witness :
  let h' := [MLOG "Set the variable to the value"
               [[Value "set"; NormalVariable "i"; Value "0"]];
             MLOGJump "Jump to start of loop"
               [Value "lessThan"; NormalVariable "i"; NormalVariable "n"] (Some 2);
             MLOG "Set the variable to the value"
               [[Value "set"; NormalVariable "x"; NormalVariable "i"]];
             MLOG "Execute for loop post condition increment/decrement"
               [[Value "op"; Value "add"; NormalVariable "i"; NormalVariable "i";
                 Value "1"]]] in
  Sample.lower
    (ForStmt (AssignStmt [Ident "i"] DEFINE [BasicLit INT "0"])
       (BinaryExpr (Ident "i") LSS (Ident "n"))
       (IncDecStmt (Ident "i") INC)
       [AssignStmt [Ident "x"] ASSIGN [Ident "i"]])
    Sample.options []
  = (h', Ok [0; 2; 3; 1])
  /\ address 1 h' 0 [0; 2; 3; 1] 2 = Some 1%Z
  /\ address 1 h' 0 [0; 2; 3; 1] 1 = Some 3%Z.
Proof.
  edestruct (for_loop_is_check_after Sample.jumpOperators Sample.FunctionReturnVariable
               Sample.expressionToMLOG 1 Sample_expressionToMLOG_allocatesOnly
               (AssignStmt [Ident "i"] DEFINE [BasicLit INT "0"])
               (Ident "i") LSS (Ident "n") (IncDecStmt (Ident "i") INC)
               [AssignStmt [Ident "x"] ASSIGN [Ident "i"]] Sample.options
               "lessThan" (NormalVariable "i") (NormalVariable "n") [])
    as (W1 & _ & _ & W2 & W3).
  - discriminate.
  - reflexivity.
  - reflexivity.
  - reflexivity.
  - cbv. reflexivity.
  - cbv. reflexivity.
  - cbv. reflexivity.
  - split; [exact W1 | split; [exact W2 | exact W3]].
Defined.

(** C1, as stated, fails on
    [for i := 0; i < n; i++ { for j := 0; j < n; j++ {} }]: the body of the
    outer loop has a statement, which lowers to no instruction; the
    initializer, the body and the post-statement lower, the condition is a
    comparison of two identifiers with an operator of the table, and the
    lowering panics where it takes the first instruction of the body. *)
Lemma for_body_without_instructions_panics :
  let inner := ForStmt (AssignStmt [Ident "j"] DEFINE [BasicLit INT "0"])
                 (BinaryExpr (Ident "j") LSS (Ident "n"))
                 (IncDecStmt (Ident "j") INC) [] in
  let h1 := [MLOG "Set the variable to the value"
               [[Value "set"; NormalVariable "i"; Value "0"]];
             MLOGJump "Jump to start of loop"
               [Value "lessThan"; NormalVariable "i"; NormalVariable "n"] None] in
  Sample.lower (BlockStmt [inner]) Sample.options h1 = (h1, Ok [])
  /\ Sample.lower
       (ForStmt (AssignStmt [Ident "i"] DEFINE [BasicLit INT "0"])
          (BinaryExpr (Ident "i") LSS (Ident "n"))
          (IncDecStmt (Ident "i") INC)
          [inner])
       Sample.options []
     = (h1 ++ [MLOG "Execute for loop post condition increment/decrement"
                 [[Value "op"; Value "add"; NormalVariable "i"; NormalVariable "i";
                   Value "1"]]],
        Panic "runtime error: index out of range [0] with length 0").
Proof. split; reflexivity. Qed.

(** [if x { y := 1 }] *)
Lemma if_without_else_example_witness :
  let h' := [MLOG "Set the variable to the value"
               [[Value "set"; NormalVariable "y"; Value "1"]];
             StatementJumpTarget false 0;
             MLOGJump "Jump to if block if true"
               [Value "equal"; NormalVariable "x"; Value "1"] (Some 1);
             StatementJumpTarget true 0;
             MLOGJump "Jump to after if block" [Value "always"] (Some 3)] in
  Sample.lower
    (IfStmt NilStmt (Ident "x") [AssignStmt [Ident "y"] DEFINE [BasicLit INT "1"]] NilStmt)
    Sample.options []
  = (h', Ok [2; 4; 0])
  /\ totalRows 1 h' [2; 4; 0] = 3
  /\ jumpAddress 1 h' 0 [2; 4; 0] 2 = Some 2%Z
  /\ jumpAddress 1 h' 0 [2; 4; 0] 4 = Some 3%Z.
Proof.
  edestruct (if_without_else_example Sample.jumpOperators Sample.FunctionReturnVariable
               Sample.expressionToMLOG 1 Sample.options []
               "Set the variable to the value" 0%Z)
    as (W1 & W2 & _ & W4 & W5).
  - reflexivity.
  - repeat split; assumption.
Defined.

(** C2, as stated, fails on the row count: the conditional jump, the skip
    jump and the one instruction of the block are three rows, not four. *)
Lemma if_without_else_has_three_rows :
  let h' := [MLOG "Set the variable to the value"
               [[Value "set"; NormalVariable "y"; Value "1"]];
             StatementJumpTarget false 0;
             MLOGJump "Jump to if block if true"
               [Value "equal"; NormalVariable "x"; Value "1"] (Some 1);
             StatementJumpTarget true 0;
             MLOGJump "Jump to after if block" [Value "always"] (Some 3)] in
  Sample.lower
    (IfStmt NilStmt (Ident "x") [AssignStmt [Ident "y"] DEFINE [BasicLit INT "1"]] NilStmt)
    Sample.options []
  = (h', Ok [2; 4; 0])
  /\ totalRows 1 h' [2; 4; 0] = 3
  /\ totalRows 1 h' [2; 4; 0] <> 4.
Proof. repeat split; [reflexivity .. | discriminate]. Qed.

(** [if x { y = 1 } else { y = 2 }] *)
Lemma if_else_lowering_witness :
  let h' := [MLOG "Set the variable to the value"
               [[Value "set"; NormalVariable "y"; Value "1"]];
             StatementJumpTarget false 0;
             MLOGJump "Jump to if block if true"
               [Value "equal"; NormalVariable "x"; Value "1"] (Some 1);
             StatementJumpTarget true 7;
             MLOGJump "Jump to after if block" [Value "always"] (Some 3);
             MLOG "Set the variable to the value"
               [[Value "set"; NormalVariable "y"; Value "2"]];
             StatementJumpTarget true 5;
             MLOGJump "Jump to after else block" [Value "always"] (Some 6)] in
  Sample.lower
    (IfStmt NilStmt (Ident "x") [AssignStmt [Ident "y"] ASSIGN [BasicLit INT "1"]]
       (BlockStmt [AssignStmt [Ident "y"] ASSIGN [BasicLit INT "2"]]))
    Sample.options []
  = (h', Ok [2; 4; 0; 7; 5])
  /\ jumpAddress 1 h' 0 [2; 4; 0; 7; 5] 2 = address 1 h' 0 [2; 4; 0; 7; 5] 0
  /\ jumpAddress 1 h' 0 [2; 4; 0; 7; 5] 4 = address 1 h' 0 [2; 4; 0; 7; 5] 5
  /\ jumpAddress 1 h' 0 [2; 4; 0; 7; 5] 7 = Some 5%Z.
Proof.
  edestruct (if_else_lowering Sample.jumpOperators Sample.FunctionReturnVariable
               Sample.expressionToMLOG 1 Sample_expressionToMLOG_allocatesOnly
               NilStmt (Ident "x") [AssignStmt [Ident "y"] ASSIGN [BasicLit INT "1"]]
               (BlockStmt [AssignStmt [Ident "y"] ASSIGN [BasicLit INT "2"]])
               Sample.options [] [] [] [] (NormalVariable "x") []
               [MLOG "Set the variable to the value"
                  [[Value "set"; NormalVariable "y"; Value "1"]]]
               0 [] 0
               [MLOG "Set the variable to the value"
                  [[Value "set"; NormalVariable "y"; Value "1"]];
                StatementJumpTarget false 0;
                MLOGJump "Jump to if block if true"
                  [Value "equal"; NormalVariable "x"; Value "1"] (Some 1);
                StatementJumpTarget true 0;
                MLOGJump "Jump to after if block" [Value "always"] (Some 3);
                MLOG "Set the variable to the value"
                  [[Value "set"; NormalVariable "y"; Value "2"]]]
               5 [] 5 0%Z)
    as (W1 & _ & _ & _ & _ & _ & _ & _ & W2 & _ & W3 & W4).
  - reflexivity.
  - reflexivity.
  - reflexivity.
  - reflexivity.
  - discriminate.
  - reflexivity.
  - reflexivity.
  - repeat split; assumption.
Defined.

(** [{ i++; return x }] *)
Lemma block_lowers_to_concatenation_witness :
  Sample.lower (BlockStmt [IncDecStmt (Ident "i") INC; ReturnStmt [Ident "x"]])
    Sample.options []
  = ([MLOG "Execute for loop post condition increment/decrement"
        [[Value "op"; Value "add"; NormalVariable "i"; NormalVariable "i"; Value "1"]];
      MLOG "Set return data"
        [[Value "set"; Value Sample.FunctionReturnVariable; NormalVariable "x"]];
      MLOGTrampolineBack],
     Ok (concat [[0]; [1; 2]])).
Proof.
  edestruct (block_lowers_to_concatenation Sample.jumpOperators
               Sample.FunctionReturnVariable Sample.expressionToMLOG
               [IncDecStmt (Ident "i") INC; ReturnStmt [Ident "x"]] Sample.options [])
    as (W & _).
  - reflexivity.
  - exact W.
Defined.

(** [return x] *)
Lemma return_ends_with_trampoline_witness :
  exists h' instructions trampoline,
    Sample.lower (ReturnStmt [Ident "x"]) Sample.options [] = (h', Ok instructions)
    /\ last instructions = Some trampoline
    /\ h' !! trampoline = Some MLOGTrampolineBack.
Proof.
  apply (return_ends_with_trampoline Sample.jumpOperators Sample.FunctionReturnVariable
           Sample.expressionToMLOG [Ident "x"] Sample.options []).
  - simpl. lia.
  - exact I.
Defined.

(** [for ; i < n; i++ { x++ }] and [for i++; i < n; { x++ }] *)
Lemma for_absent_clause_not_supported_witness :
  Sample.lower
    (ForStmt NilStmt (BinaryExpr (Ident "i") LSS (Ident "n")) (IncDecStmt (Ident "i") INC)
       [IncDecStmt (Ident "x") INC])
    Sample.options []
  = ([], Err "statement type not supported: <nil>")
  /\ Sample.lower
       (ForStmt (IncDecStmt (Ident "i") INC) (BinaryExpr (Ident "i") LSS (Ident "n")) NilStmt
          [IncDecStmt (Ident "x") INC])
       Sample.options []
     = ([MLOG "Execute for loop post condition increment/decrement"
           [[Value "op"; Value "add"; NormalVariable "i"; NormalVariable "i"; Value "1"]];
         MLOGJump "Jump to start of loop"
           [Value "lessThan"; NormalVariable "i"; NormalVariable "n"] None;
         MLOG "Execute for loop post condition increment/decrement"
           [[Value "op"; Value "add"; NormalVariable "x"; NormalVariable "x"; Value "1"]]],
        Err "statement type not supported: <nil>").
Proof.
  destruct (for_absent_clause_not_supported Sample.jumpOperators
              Sample.FunctionReturnVariable Sample.expressionToMLOG
              (IncDecStmt (Ident "i") INC) (BinaryExpr (Ident "i") LSS (Ident "n"))
              (IncDecStmt (Ident "i") INC) [IncDecStmt (Ident "x") INC]
              Sample.options []) as (W1 & W2).
  - discriminate.
  - split; [exact W1 |].
    eapply W2; cbv; reflexivity.
Defined.

(** C10, as stated, fails on [for i := 0; i < len(a); { i++ }]: the
    post-statement is absent and the body is not empty, and the error is
    the one of the condition, which is checked before the post-statement is
    lowered. *)
Lemma for_absent_post_reports_condition :
  Sample.lower
    (ForStmt (AssignStmt [Ident "i"] DEFINE [BasicLit INT "0"])
       (BinaryExpr (Ident "i") LSS (CallExpr (Ident "len") [Ident "a"]))
       NilStmt [IncDecStmt (Ident "i") INC])
    Sample.options []
  = ([MLOG "Set the variable to the value" [[Value "set"; NormalVariable "i"; Value "0"]]],
     Err "unknown right side expression type: *ast.CallExpr")
  /\ "unknown right side expression type: *ast.CallExpr"
     <> "statement type not supported: <nil>".
Proof. split; [reflexivity | discriminate]. Qed.

(** Two rows from address 9, addresses and comments shown. *)
Lemma numbered_rows_count_up_witness :
  SampleRendering.render (Some {| Numbers := true; Comments := true |})
    [[Value "set"; NormalVariable "x"; Value "5"]; [Value "b"]] (MLOG "Set" []) 9
  = Ok (concatRows
          (numberedRows SampleRendering.GetValue SampleRendering.GetComment
             SampleRendering.RuneCountInString {| Numbers := true; Comments := true |}
             (MLOG "Set" []) 9 [[Value "set"; NormalVariable "x"; Value "5"]; [Value "b"]]))
  /\ readAddress
       ("  9: set x 5" +:+ spaces 36 +:+ " // Set" +:+ newline) = Some 9%Z
  /\ readAddress (" 10: b" +:+ spaces 44 +:+ " // Set" +:+ newline) = Some 10%Z.
Proof.
  destruct (numbered_rows_count_up SampleRendering.GetValue SampleRendering.GetComment
              SampleRendering.RuneCountInString {| Numbers := true; Comments := true |}
              [[Value "set"; NormalVariable "x"; Value "5"]; [Value "b"]] (MLOG "Set" []) 9)
    as (W1 & _ & W3).
  - reflexivity.
  - lia.
  - simpl. lia.
  - split; [exact W1 |]. split.
    + exact (W3 0 _ eq_refl).
    + exact (W3 1 _ eq_refl).
Defined.

(** C9, as stated, fails at the largest [int]: the address of the second
    row is the smallest [int], not one more than the address of the
    first. *)
Lemma numbered_rows_wrap_around :
  SampleRendering.render (Some {| Numbers := true; Comments := false |})
    [[Value "a"]; [Value "b"]] MLOGTrampolineBack (2 ^ 63 - 1)
  = Ok (("9223372036854775807: a" +:+ newline)
          +:+ ("-9223372036854775808: b" +:+ newline))
  /\ readAddress ("9223372036854775807: a" +:+ newline) = Some (2 ^ 63 - 1)%Z
  /\ readAddress ("-9223372036854775808: b" +:+ newline) = Some (- 2 ^ 63)%Z
  /\ (- 2 ^ 63 <> (2 ^ 63 - 1) + 1)%Z.
Proof. repeat split; try reflexivity. discriminate. Qed.

(** ** Further properties of the statement lowering *)

Section LoweringProperties.

Variable jumpOperators : Token -> option string.
Variable FunctionReturnVariable : string.
Variable expressionToMLOG : list Resolvable -> Expr -> Options -> M (list ptr).
Variable trampolineRows : nat.

Local Abbreviation lower :=
  (statementToMLOG jumpOperators FunctionReturnVariable expressionToMLOG).
Local Abbreviation lowerAll :=
  (lowerEach jumpOperators FunctionReturnVariable expressionToMLOG).
Local Abbreviation lowerIfInit :=
  (ifInit jumpOperators FunctionReturnVariable expressionToMLOG).

(** *** Unsupported statements and failing children *)

(** X1.  A statement of a kind without a case in the type switch, nil
    included, is rejected with the error "statement type not supported: "
    followed by the name of its type; nothing is created. *)
Theorem unsupported_statement_rejected statement options h :
  isSupported statement = false ->
  lower statement options h
  = (h, Err ("statement type not supported: " +:+ stmtTypeName statement)).
Proof. destruct statement; try discriminate; reflexivity. Qed.

Lemma bind_eq_m {A B} (m m' : M A) (k : A -> M B) h :
  m h = m' h -> bind m k h = bind m' k h.
Proof. intros E. unfold bind. now rewrite E. Qed.

Lemma lowerEach_app List1 List2 options h :
  lowerAll (List1 ++ List2) options h
  = bind (lowerAll List1 options)
      (fun outs1 => bind (lowerAll List2 options) (fun outs2 => ret (outs1 ++ outs2))) h.
Proof.
  revert h. induction List1 as [|s List1 IH]; intros h.
  - simpl. rewrite bind_ret_l. unfold bind, ret.
    destruct (lowerAll List2 options h) as [h1 [a|e|e]]; reflexivity.
  - simpl. rewrite bind_assoc. apply bind_ext. intros out h1.
    rewrite (bind_eq_m _ _ _ _ (IH h1)). rewrite !bind_assoc.
    apply bind_ext. intros outs1 h2.
    rewrite bind_ret_l, bind_assoc. apply bind_ext. intros outs2 h3.
    reflexivity.
Qed.

(** X2.  A block stops at its first failing statement: when the statements
    before it lower and it fails, with an error or a panic, the block fails
    in the same way, in the arena of that failure; the statements after it
    are not looked at. *)
Theorem block_stops_at_first_failure before s after options h h1 outs h2 :
  lowerAll before options h = (h1, Ok outs) ->
  (forall e, lower s options h1 = (h2, Err e) ->
     lower (BlockStmt (before ++ s :: after)) options h = (h2, Err e))
  /\ (forall e, lower s options h1 = (h2, Panic e) ->
        lower (BlockStmt (before ++ s :: after)) options h = (h2, Panic e)).
Proof.
  intros HB. split; intros e Hs.
  - assert (H : lowerAll (before ++ s :: after) options h = (h2, Err e)).
    { rewrite lowerEach_app, (bind_Ok _ _ _ _ _ HB). simpl lowerEach.
      rewrite bind_assoc. now rewrite (bind_Err _ _ _ _ _ Hs). }
    rewrite lower_BlockStmt, rangeBlock_lowerEach. now rewrite (bind_Err _ _ _ _ _ H).
  - assert (H : lowerAll (before ++ s :: after) options h = (h2, Panic e)).
    { rewrite lowerEach_app, (bind_Ok _ _ _ _ _ HB). simpl lowerEach.
      rewrite bind_assoc. now rewrite (bind_Panic _ _ _ _ _ Hs). }
    rewrite lower_BlockStmt, rangeBlock_lowerEach. now rewrite (bind_Panic _ _ _ _ _ H).
Qed.

(** *** The order of the checks of a loop *)

(** X3.  For a [for] loop with a non-empty body whose initializer lowers:
    a condition that is not a binary expression, an operator outside the
    table, a left operand and then a right operand that is neither a
    literal nor a bare identifier are each rejected with an error of their
    own, in this order, before the body is lowered. *)
Theorem for_condition_rejected Init Cond Post Body options h h1 initMlog :
  Body <> [] ->
  lower Init options h = (h1, Ok initMlog) ->
  ((forall X Op Y, Cond <> BinaryExpr X Op Y) ->
     lower (ForStmt Init Cond Post Body) options h
     = (h1, Err "for loop can only have binary conditional expressions"))
  /\ (forall X Op Y, Cond = BinaryExpr X Op Y ->
        (jumpOperators Op = None ->
           lower (ForStmt Init Cond Post Body) options h
           = (h1, Err "jump statement cannot use this operation: token.Token"))
        /\ (forall translatedOp, jumpOperators Op = Some translatedOp ->
              (asOperand X = None ->
                 lower (ForStmt Init Cond Post Body) options h
                 = (h1, Err ("unknown left side expression type: " +:+ exprTypeName X)))
              /\ (forall leftSide, asOperand X = Some leftSide -> asOperand Y = None ->
                    lower (ForStmt Init Cond Post Body) options h
                    = (h1, Err ("unknown right side expression type: "
                                  +:+ exprTypeName Y))))).
Proof.
  intros HBody HInit. split.
  - intros HC. rewrite lower_ForStmt_nonempty by exact HBody.
    rewrite (bind_Ok _ _ _ _ _ HInit).
    destruct Cond; try reflexivity. now destruct (HC Cond1 Op Cond2).
  - intros X Op Y ->. split.
    + intros HOp. rewrite lower_ForStmt_nonempty by exact HBody.
      rewrite (bind_Ok _ _ _ _ _ HInit). unfold forCondition. now rewrite HOp.
    + intros translatedOp HOp. split.
      * intros HX. rewrite lower_ForStmt_nonempty by exact HBody.
        rewrite (bind_Ok _ _ _ _ _ HInit). unfold forCondition. rewrite HOp.
        destruct X; try discriminate HX; reflexivity.
      * intros leftSide HX HY. rewrite lower_ForStmt_nonempty by exact HBody.
        rewrite (bind_Ok _ _ _ _ _ HInit). unfold forCondition. rewrite HOp.
        destruct X; try discriminate HX; destruct Y; try discriminate HY; reflexivity.
Qed.

(** X4.  A [for] loop with a non-empty body reports the first failure: an
    error of the initializer whatever the condition is; with an accepted
    condition, an error of the body whatever the post-statement is; and an
    error of the post-statement even when the body has lowered to no
    instruction. *)
Theorem for_reports_first_failure Init Cond Post Body options h :
  Body <> [] ->
  (forall h1 e, lower Init options h = (h1, Err e) ->
     lower (ForStmt Init Cond Post Body) options h = (h1, Err e))
  /\ (forall h1 initMlog h2 loopStartJump h3 e,
        lower Init options h = (h1, Ok initMlog) ->
        forCondition jumpOperators Cond h1 = (h2, Ok loopStartJump) ->
        lower (BlockStmt Body) options h2 = (h3, Err e) ->
        lower (ForStmt Init Cond Post Body) options h = (h3, Err e))
  /\ (forall h1 initMlog h2 loopStartJump h3 bodyMLOG h4 e,
        lower Init options h = (h1, Ok initMlog) ->
        forCondition jumpOperators Cond h1 = (h2, Ok loopStartJump) ->
        lower (BlockStmt Body) options h2 = (h3, Ok bodyMLOG) ->
        lower Post options h3 = (h4, Err e) ->
        lower (ForStmt Init Cond Post Body) options h = (h4, Err e)).
Proof.
  intros HBody. repeat split; intros;
    rewrite lower_ForStmt_nonempty by exact HBody; run; reflexivity.
Qed.

(** *** Conditionals *)

(** X5.  An [if] whose block lowers to no instruction, such as [if x {}],
    makes the lowering panic where it takes the first instruction of the
    block, once the initializer and the condition have been lowered; the
    [else] branch is not lowered. *)
Theorem if_body_without_instructions_panics Init Cond Body Else options h
    h1 initInstructions h2 cond h3 :
  lowerIfInit Init options h = (h1, Ok initInstructions) ->
  ifCondition expressionToMLOG Cond options initInstructions h1 = (h2, Ok cond) ->
  lower (BlockStmt Body) options h2 = (h3, Ok []) ->
  lower (IfStmt Init Cond Body Else) options h
  = (h3, Panic "runtime error: index out of range [0] with length 0").
Proof.
  intros HInit HCond HBlock. rewrite lower_IfStmt. run. reflexivity.
Qed.

(** X6.  An [if] whose [else] branch lowers to no instruction, such as
    [if x { y = 1 } else {}], makes the lowering panic where it takes the
    last instruction of the [else] branch. *)
Theorem if_else_without_instructions_panics Init Cond Body Else options h
    h1 initInstructions h2 condVar pre h3 thenFirst thenRest thenLast h5 :
  lowerIfInit Init options h = (h1, Ok initInstructions) ->
  ifCondition expressionToMLOG Cond options initInstructions h1
    = (h2, Ok (condVar, pre)) ->
  lower (BlockStmt Body) options h2 = (h3, Ok (thenFirst :: thenRest)) ->
  last (thenFirst :: thenRest) = Some thenLast ->
  Else <> NilStmt ->
  lower Else options
    (h3 ++ [StatementJumpTarget false thenFirst;
            MLOGJump "Jump to if block if true"
              [Value "equal"; condVar; Value "1"] (Some (length h3));
            StatementJumpTarget true thenLast;
            MLOGJump "Jump to after if block" [Value "always"] (Some (length h3 + 2))])
    = (h5, Ok []) ->
  lower (IfStmt Init Cond Body Else) options h
  = (h5, Panic "runtime error: index out of range [-1]").
Proof.
  intros HInit HCond HThen HThenLast HNotNil HElse.
  assert (HNil : isNilStmt Else = false) by (destruct Else; [contradiction | reflexivity ..]).
  rewrite lower_IfStmt. run. cbv beta iota. rewrite HThenLast.
  rewrite !bind_alloc. rewrite HNil. norm_heap. simpl fst. simpl snd.
  rewrite (bind_Ok _ _ _ _ _ HElse). reflexivity.
Qed.

(** *** Assignment *)

Lemma bind_ret_eta {A} (m : M A) h : bind m (fun a => ret a) h = m h.
Proof. unfold bind, ret. destruct (m h) as [h1 [a|e|e]]; reflexivity. Qed.

Lemma assignPairs_lowerPairs Tok Rhs options :
  Tok = ASSIGN \/ Tok = DEFINE ->
  forall names rhs i mlog h,
    drop i Rhs = rhs -> length names = length rhs ->
    assignPairs expressionToMLOG (map Ident names) Tok Rhs options i mlog h
    = bind (lowerPairs expressionToMLOG (zip names rhs) options)
        (fun outs => ret (mlog ++ concat outs)) h.
Proof.
  intros HTok. induction names as [|Name names IH]; intros rhs i mlog h HD HL.
  - simpl. rewrite bind_ret_l. simpl. now rewrite app_nil_r.
  - destruct rhs as [|r rhs]; [discriminate HL |].
    assert (Hi : Rhs !! i = Some r).
    { rewrite <- (Nat.add_0_r i), <- lookup_drop, HD. reflexivity. }
    assert (HD' : drop (S i) Rhs = rhs).
    { replace (S i) with (i + 1) by lia. rewrite <- drop_drop, HD. reflexivity. }
    simpl. rewrite Hi.
    assert (HT : bool_decide (Tok <> ASSIGN) && bool_decide (Tok <> DEFINE) = false).
    { destruct HTok as [-> | ->]; reflexivity. }
    rewrite HT. rewrite bind_assoc. apply bind_ext. intros out h1.
    rewrite (IH rhs (S i) (mlog ++ out) h1 HD') by (simpl in HL; lia).
    rewrite bind_assoc. apply bind_ext. intros outs h2.
    rewrite bind_ret_l. simpl. now rewrite app_assoc.
Qed.

(** X7.  An assignment of as many sources as destinations, all
    destinations bare identifiers, with [=] or [:=]: every pair is lowered
    by the expression lowering with that one destination, in order, and the
    result is the concatenation of their instructions; the failure of a
    pair is the failure of the assignment. *)
Theorem assign_n_to_n_lowers_pairwise names Tok Rhs options h :
  Tok = ASSIGN \/ Tok = DEFINE ->
  length names = length Rhs ->
  assignStmtToMLOG expressionToMLOG (map Ident names) Tok Rhs options h
  = bind (lowerPairs expressionToMLOG (zip names Rhs) options)
      (fun outs => ret (concat outs)) h.
Proof.
  intros HTok HL. unfold assignStmtToMLOG.
  rewrite length_map, (proj2 (Nat.eqb_eq _ _) HL). simpl negb. cbv iota.
  now apply assignPairs_lowerPairs.
Qed.

(** X8.  With as many sources as destinations and a bare identifier as
    the first destination, an operator other than [=] and [:=], as in
    [x += 1], is rejected with "only direct assignment is supported";
    nothing is created. *)
Theorem assign_compound_operator_rejected Name Lhs Tok Rhs options h :
  Tok <> ASSIGN -> Tok <> DEFINE ->
  length (Ident Name :: Lhs) = length Rhs ->
  assignStmtToMLOG expressionToMLOG (Ident Name :: Lhs) Tok Rhs options h
  = (h, Err "only direct assignment is supported").
Proof.
  intros H1 H2 HL. unfold assignStmtToMLOG.
  rewrite (proj2 (Nat.eqb_eq _ _) HL). simpl.
  rewrite !bool_decide_true by assumption. reflexivity.
Qed.

Lemma assignLeftSide_identifiers names h :
  assignLeftSide (map Ident names) h = (h, Ok (map NormalVariable names)).
Proof.
  induction names as [|Name names IH]; [reflexivity |].
  simpl. rewrite bind_ret_l, (bind_Ok _ _ _ _ _ IH). reflexivity.
Qed.

(** X9.  An assignment of one source to a number of destinations other
    than one, all bare identifiers: the expression lowering is called once,
    with all the destinations in order, and its result, success or failure,
    is the result of the assignment.  The operator is not looked at. *)
Theorem assign_n_to_1_is_one_call names Tok rhs options h :
  length names <> 1 ->
  assignStmtToMLOG expressionToMLOG (map Ident names) Tok [rhs] options h
  = expressionToMLOG (map NormalVariable names) rhs options h.
Proof.
  intros HL. unfold assignStmtToMLOG. rewrite length_map.
  destruct (length names =? length [rhs])%nat eqn:E.
  { apply Nat.eqb_eq in E. simpl in E. contradiction. }
  change (negb false) with true. cbv beta iota zeta.
  rewrite (bind_Ok _ _ _ _ _ (assignLeftSide_identifiers names h)).
  apply bind_ret_eta.
Qed.

(** X10.  Destinations and sources in different numbers, and not exactly
    one source: the assignment is rejected with "mismatched variable
    assignment sides", whatever the destinations are; nothing is created. *)
Theorem assign_count_mismatch_rejected Lhs Tok Rhs options h :
  length Lhs <> length Rhs -> length Rhs <> 1 ->
  assignStmtToMLOG expressionToMLOG Lhs Tok Rhs options h
  = (h, Err "mismatched variable assignment sides").
Proof. apply assign_mismatch. Qed.

(** X11.  With as many sources as destinations, an assignment with a
    destination that is not a bare identifier never succeeds, whatever the
    expression lowering does. *)
Theorem assign_n_to_n_needs_identifiers Lhs Tok Rhs options h h' l :
  length Lhs = length Rhs ->
  Exists (fun x => isIdent x = false) Lhs ->
  assignStmtToMLOG expressionToMLOG Lhs Tok Rhs options h <> (h', Ok l).
Proof.
  intros HL HE. apply assign_n_to_n_non_identifier; [exact HL |].
  eapply Exists_impl; [exact HE |]. simpl. intros x Hx Name ->. discriminate Hx.
Qed.

(** *** Return *)

(** X12.  A [return] without a value lowers to the trampoline marker
    alone.  A [return] of a bare identifier or a literal lowers to two
    instructions: a [set] of the return slot from that operand, then the
    trampoline marker. *)
Theorem return_of_operand Results options h :
  (Results = [] ->
   lower (ReturnStmt Results) options h = (h ++ [MLOGTrampolineBack], Ok [length h]))
  /\ (forall returnValue operand,
        Results = [returnValue] -> asOperand returnValue = Some operand ->
        lower (ReturnStmt Results) options h
        = (h ++ [MLOG "Set return data"
                   [[Value "set"; Value FunctionReturnVariable; operand]];
                 MLOGTrampolineBack],
           Ok [length h; length h + 1])).
Proof.
  split.
  - intros ->. reflexivity.
  - intros returnValue operand -> HO.
    destruct returnValue; try discriminate HO; simpl in HO; injection HO as <-;
      simpl; unfold bind, alloc, ret; simpl; norm_heap; reflexivity.
Qed.

(** X13.  A [return] of any other expression creates a temporary, has the
    expression lowered into it, and appends the [set] of the return slot
    from the temporary and the trampoline marker to the instructions of the
    expression; an error of the expression lowering is the error of the
    [return], and no marker is created. *)
Theorem return_of_expression returnValue options h h1 :
  returnValue <> NilExpr -> asOperand returnValue = None ->
  let temporary := length h in
  (forall instructions,
     expressionToMLOG [DynamicVariable temporary] returnValue options
       (h ++ [DynamicVariableCell]) = (h1, Ok instructions) ->
     lower (ReturnStmt [returnValue]) options h
     = (h1 ++ [MLOG "Set return data"
                 [[Value "set"; Value FunctionReturnVariable; DynamicVariable temporary]];
               MLOGTrampolineBack],
        Ok (instructions ++ [length h1; length h1 + 1])))
  /\ (forall e,
        expressionToMLOG [DynamicVariable temporary] returnValue options
          (h ++ [DynamicVariableCell]) = (h1, Err e) ->
        lower (ReturnStmt [returnValue]) options h = (h1, Err e)).
Proof.
  intros HN HO temporary. split.
  - intros instructions HE.
    destruct returnValue; try discriminate HO; try contradiction;
      simpl; unfold returnResultVar; rewrite !bind_assoc, bind_alloc;
      rewrite !bind_assoc, (bind_Ok _ _ _ _ _ HE);
      unfold bind, alloc, ret; simpl; norm_heap;
      rewrite <- (app_assoc instructions); reflexivity.
  - intros e HE.
    destruct returnValue; try discriminate HO; try contradiction;
      simpl; unfold returnResultVar; rewrite !bind_assoc, bind_alloc;
      rewrite !bind_assoc, (bind_Err _ _ _ _ _ HE); reflexivity.
Qed.

(** *** What the lowering creates *)

Hypothesis expressionToMLOG_allocatesOnly :
  forall ident expr options, allocatesOnly (expressionToMLOG ident expr options).

Local Abbreviation lower_allocatesOnly :=
  (statementToMLOG_allocatesOnly jumpOperators FunctionReturnVariable expressionToMLOG
     expressionToMLOG_allocatesOnly).

(** X14.  If the expression lowering only allocates, so does the statement
    lowering, whether it succeeds or fails: every cell that existed before
    is unchanged afterwards, and on success the instructions returned are
    pairwise distinct cells that did not exist before. *)
Theorem lowering_only_allocates statement options h h' r :
  lower statement options h = (h', r) ->
  (forall p o, h !! p = Some o -> h' !! p = Some o)
  /\ (forall l, r = Ok l ->
        NoDup l /\ forall p, p ∈ l -> length h <= p < length h').
Proof.
  intros H. destruct (lower_allocatesOnly _ _ _ _ _ H) as [[k ->] C]. split.
  - intros p o Hp. now apply lookup_app_l_Some.
  - intros l ->. destruct C as [N F]. split; [exact N |].
    intros p Hp. exact (proj1 (Forall_forall _ _) F p Hp).
Qed.

(** X15.  An [if] without [else] whose block lowers to at least one
    instruction: the list is the instructions of the initializer and of
    the condition, the conditional jump, the skip jump and the block.  The
    conditional jump resolves to the address of the first instruction of
    the block, two rows after the condition, and the skip jump to the
    address after the last instruction of the block, the end of the
    list. *)
Theorem if_without_else_lowering Init Cond Body options h
    h1 initInstructions h2 condVar pre h3 thenFirst thenRest thenLast base :
  lowerIfInit Init options h = (h1, Ok initInstructions) ->
  ifCondition expressionToMLOG Cond options initInstructions h1
    = (h2, Ok (condVar, pre)) ->
  lower (BlockStmt Body) options h2 = (h3, Ok (thenFirst :: thenRest)) ->
  last (thenFirst :: thenRest) = Some thenLast ->
  let ifTarget := length h3 in
  let ifJump := length h3 + 1 in
  let afterIfTarget := length h3 + 2 in
  let afterIfJump := length h3 + 3 in
  let h' := h3 ++ [StatementJumpTarget false thenFirst;
                   MLOGJump "Jump to if block if true"
                     [Value "equal"; condVar; Value "1"] (Some ifTarget);
                   StatementJumpTarget true thenLast;
                   MLOGJump "Jump to after if block" [Value "always"]
                     (Some afterIfTarget)] in
  let program := pre ++ [ifJump; afterIfJump] ++ thenFirst :: thenRest in
  lower (IfStmt Init Cond Body NilStmt) options h = (h', Ok program)
  /\ jumpAddress trampolineRows h' base program ifJump
       = Some (base + Z.of_nat (totalRows trampolineRows h' pre) + 2)%Z
  /\ address trampolineRows h' base program thenFirst
       = Some (base + Z.of_nat (totalRows trampolineRows h' pre) + 2)%Z
  /\ jumpAddress trampolineRows h' base program afterIfJump
       = Some (base + Z.of_nat (totalRows trampolineRows h' program))%Z.
Proof.
  intros HInit HCond HThen HThenLast ifTarget ifJump afterIfTarget afterIfJump h' program.
  assert (HEq : lower (IfStmt Init Cond Body NilStmt) options h = (h', Ok program)).
  { subst ifTarget ifJump afterIfTarget afterIfJump h' program.
    rewrite lower_IfStmt. run. cbv beta iota. rewrite HThenLast.
    rewrite !bind_alloc. simpl isNilStmt. cbv iota. norm_heap. simpl fst. simpl snd.
    unfold ret. f_equal. f_equal. repeat (rewrite <- app_assoc; simpl). reflexivity. }
  assert (LifTarget : h' !! ifTarget = Some (StatementJumpTarget false thenFirst)).
  { unfold h'. now rewrite (lookup_app_at h3 _ _ 0) by (unfold ifTarget; lia). }
  assert (LifJump : h' !! ifJump
                    = Some (MLOGJump "Jump to if block if true"
                              [Value "equal"; condVar; Value "1"] (Some ifTarget))).
  { unfold h'. now rewrite (lookup_app_at h3 _ _ 1) by reflexivity. }
  assert (LafterIfTarget : h' !! afterIfTarget = Some (StatementJumpTarget true thenLast)).
  { unfold h'. now rewrite (lookup_app_at h3 _ _ 2) by reflexivity. }
  assert (LafterIfJump : h' !! afterIfJump
                         = Some (MLOGJump "Jump to after if block" [Value "always"]
                                   (Some afterIfTarget))).
  { unfold h'. now rewrite (lookup_app_at h3 _ _ 3) by reflexivity. }
  assert (RifJump : rows trampolineRows h' ifJump = 1)
    by (unfold rows; now rewrite LifJump).
  assert (RafterIfJump : rows trampolineRows h' afterIfJump = 1)
    by (unfold rows; now rewrite LafterIfJump).
  destruct (lower_allocatesOnly _ _ _ _ _ HEq) as [_ [N _]].
  assert (Athen : address trampolineRows h' base program thenFirst
                  = Some (base + Z.of_nat (totalRows trampolineRows h' pre) + 2)%Z).
  { rewrite (address_split _ _ _ _ (pre ++ [ifJump; afterIfJump]) thenFirst thenRest N).
    - rewrite totalRows_app, !totalRows_cons, totalRows_nil, RifJump, RafterIfJump.
      f_equal. lia.
    - unfold program. repeat (rewrite <- app_assoc; simpl). reflexivity. }
  split; [exact HEq |]. split; [| split; [exact Athen |]].
  - unfold jumpAddress, resolve. rewrite LifJump, LifTarget, Athen. reflexivity.
  - unfold jumpAddress, resolve. rewrite LafterIfJump, LafterIfTarget.
    apply last_Some in HThenLast. destruct HThenLast as [thenInit HThenInit].
    rewrite (address_split _ _ _ _ (pre ++ [ifJump; afterIfJump] ++ thenInit) thenLast [] N)
      by (unfold program; rewrite HThenInit;
          repeat (rewrite <- app_assoc; simpl); reflexivity).
    f_equal. unfold program. rewrite HThenInit.
    rewrite !totalRows_app, !totalRows_cons, !totalRows_nil. lia.
Qed.

End LoweringProperties.
